(** * Verification of the provider abstraction and card pipeline

    A shallow embedding of [generator/generators.py],
    [generator/api_calls/openai_text.py],
    [generator/api_calls/elevenlabs_audio.py] and
    [generator/read-generate-import.py], followed by the properties the
    specification states about them.

    Python values are represented by the smallest datatypes that keep the
    distinctions the code tests ([isinstance], [len], dictionary lookup);
    exceptions are explicit results; the file system, the iterators the
    audio provider hands out and the remote calls live in an explicit
    world that every effectful operation threads through. *)

From stdpp Require Import base option list gmap strings.
From Stdlib Require Import Strings.Byte.

Set Warnings "-register-all".

Open Scope string_scope.
Open Scope list_scope.

(** ** Exceptions and results *)

(** The built-in exceptions the embedded code can raise. Messages are not
    represented (a [KeyError] keeps its key); the evaluation of a
    message's format arguments is, where it can itself raise.
    [RemoteError] stands for whatever a provider client raises. *)
Inductive PyExn : Type :=
  | ValueError
  | KeyError (key : string)
  | AssertionError
  | TypeError
  | AttributeError
  | RemoteError (tag : string).

Inductive Result (A : Type) : Type :=
  | Ok (a : A)
  | Raise (e : PyExn).
Arguments Ok {A} a.
Arguments Raise {A} e.

(** ** Dictionaries *)

(** A dict display [{k1: v1, k2: v2, ...}] stores its items left to
    right, a later item replacing an earlier one with the same key. *)
Definition py_dict `{Countable K} {V} (items : list (K * V)) : gmap K V :=
  fold_left (λ m kv, <[kv.1 := kv.2]> m) items ∅.

(** Subscription [d[k]]: [KeyError] when the key is absent. *)
Definition py_getitem {V} (d : gmap string V) (k : string) : Result V :=
  match d !! k with
  | Some v => Ok v
  | None => Raise (KeyError k)
  end.

(** ** Capability model: [AvailableModels] *)

Inductive AvailableModels : Type :=
  | GPT_4o
  | GPT_3_5_turbo
  | COHERE
  | KANDINSKY_3
  | ELEVENLABS.

#[global] Instance AvailableModels_eq_dec : EqDecision AvailableModels.
Proof. solve_decision. Defined.

Definition AvailableModels_index (m : AvailableModels) : nat :=
  match m with
  | GPT_4o => 0 | GPT_3_5_turbo => 1 | COHERE => 2
  | KANDINSKY_3 => 3 | ELEVENLABS => 4
  end.

Definition AvailableModels_of_index (n : nat) : AvailableModels :=
  match n with
  | 0 => GPT_4o | 1 => GPT_3_5_turbo | 2 => COHERE
  | 3 => KANDINSKY_3 | _ => ELEVENLABS
  end.

#[global] Instance AvailableModels_countable : Countable AvailableModels.
Proof.
  apply (inj_countable' AvailableModels_index AvailableModels_of_index).
  by intros [].
Defined.

(** The members in declaration order. *)
Definition all_members : list AvailableModels :=
  [GPT_4o; GPT_3_5_turbo; COHERE; KANDINSKY_3; ELEVENLABS].

(** [m.value]: the wire string of a member. *)
Definition value (m : AvailableModels) : string :=
  match m with
  | GPT_4o => "gpt-4o"
  | GPT_3_5_turbo => "gpt-3.5-turbo"
  | COHERE => "cohere"
  | KANDINSKY_3 => "kandinsky"
  | ELEVENLABS => "elevenlabs"
  end.

Definition available_text_models : gset AvailableModels :=
  {[GPT_4o; GPT_3_5_turbo; COHERE]}.

Definition available_image_models : gset AvailableModels :=
  {[KANDINSKY_3]}.

Definition available_tts_models : gset AvailableModels :=
  {[ELEVENLABS]}.

(** [all_models] starts as a fresh text set and is updated in place with
    the two other sets. *)
Definition available_models : gset AvailableModels :=
  let all_models := available_text_models in
  let all_models := all_models ∪ available_image_models in
  let all_models := all_models ∪ available_tts_models in
  all_models.

Definition backward_mapping : gmap string AvailableModels :=
  py_dict [ (value GPT_4o, GPT_4o);
            (value GPT_3_5_turbo, GPT_3_5_turbo);
            (value COHERE, COHERE);
            (value ELEVENLABS, ELEVENLABS);
            (value KANDINSKY_3, KANDINSKY_3) ].

(** A string is a declared wire string when some member has it as value. *)
Definition declared_wire_string (s : string) : Prop :=
  ∃ m, value m = s.

#[global] Instance declared_wire_string_dec s : Decision (declared_wire_string s).
Proof.
  refine (cast_if (decide (Exists (λ m, value m = s) all_members))).
  - apply Exists_exists in e as [m [_ Hm]]. by exists m.
  - intros [m Hm]. apply n, Exists_exists. exists m.
    split; [destruct m; set_solver | done].
Defined.

(** ** The world and the effect monad *)

(** Objects that the artifact fields of a response can hold, and that an
    iterator can yield. [OIterator l] is a reference to an iterator object
    in the store; everything else is a value. [OBuffer b] is a bytes-like
    object that is not an instance of [bytes] (a [bytearray], a
    [memoryview] over bytes) with content [b]. The characters of a string
    stand for its code points. *)
Inductive PyObj : Type :=
  | OBytes (b : list byte)
  | OStr (s : string)
  | OList (items : list PyObj)
  | OIterator (l : nat)
  | ONone
  | OInt (n : Z)
  | OBuffer (b : list byte).

(** An iterator object: the items it has yet to yield, and how it ends
    once they are gone ([None]: plain exhaustion; [Some e]: it raises [e],
    as a generator does when its source fails). *)
Record IterState : Type := mkIter {
  pending : list PyObj;
  ending : option PyExn
}.

Definition exhausted : IterState := mkIter [] None.

(** Calls that leave the process. *)
Inductive RemoteRequest : Type :=
  | ReqHttpPost (url : string) (headers : gmap string string)
                (json_text json_model_id : string)
  | ReqCohereChat (api_key message : string) (max_tokens : nat)
  | ReqOpenAIChat (api_key model : string)
                  (messages : list (string * string)) (max_tokens : nat)
  | ReqKandinsky (prompt api_key secret_key : string).

Inductive Event : Type :=
  | EvOpen (path : string)
  | EvWrite (path : string) (data : list byte)
  | EvClose (path : string)
  | EvRemote (req : RemoteRequest).

Record World : Type := mkWorld {
  fs : gmap string (list byte);
  iters : gmap nat IterState;
  log : list Event
}.

Definition set_fs (f : gmap string (list byte)) (w : World) : World :=
  mkWorld f (iters w) (log w).
Definition set_iter (l : nat) (st : IterState) (w : World) : World :=
  mkWorld (fs w) (<[l := st]> (iters w)) (log w).
Definition emit (e : Event) (w : World) : World :=
  mkWorld (fs w) (iters w) (log w ++ [e]).

(** A computation over a state [S] that returns or raises. A raise keeps
    the state reached so far: nothing is rolled back. *)
Definition M (S A : Type) : Type := S → Result A * S.

#[global] Instance M_ret {S} : MRet (M S) := λ A a s, (Ok a, s).
#[global] Instance M_bind {S} : MBind (M S) := λ A B k m s,
  match m s with
  | (Ok a, s') => k a s'
  | (Raise e, s') => (Raise e, s')
  end.

Definition raise {S A} (e : PyExn) : M S A := λ s, (Raise e, s).
Definition lift {S A} (r : Result A) : M S A := λ s, (r, s).
Definition modify {S} (f : S → S) : M S unit := λ s, (Ok tt, f s).

(** [try: body finally: cleanup], for a cleanup that cannot raise. *)
Definition finally {S A} (body : M S A) (cleanup : S → S) : M S A :=
  λ s, let '(r, s') := body s in (r, cleanup s').

#[global] Instance Result_ret : MRet Result := λ A a, Ok a.
#[global] Instance Result_bind : MBind Result := λ A B k r,
  match r with
  | Ok a => k a
  | Raise e => Raise e
  end.

(** [assert cond]. *)
Definition py_assert {S} (cond : bool) : M S unit :=
  if cond then mret tt else raise AssertionError.

(** ** Built-ins on objects *)

Definition isinstance_bytes (o : PyObj) : bool :=
  match o with OBytes _ => true | _ => false end.

(** [isinstance(o, Iterator)]: lists, bytes and strings are iterable but
    are not iterators. *)
Definition isinstance_Iterator (o : PyObj) : bool :=
  match o with OIterator _ => true | _ => false end.

(** [len(o)]: [TypeError] for an object without a length. *)
Definition py_len (o : PyObj) : Result nat :=
  match o with
  | OBytes b => Ok (length b)
  | OStr s => Ok (String.length s)
  | OList items => Ok (length items)
  | OBuffer b => Ok (length b)
  | OIterator _ | ONone | OInt _ => Raise TypeError
  end.

(** ** Files *)

(** [open(path, "wb")] creates or truncates the file. The destination is
    taken to be writable: the file system is an external collaborator and
    its own failures are outside this model. *)
Definition py_open_wb (path : string) : World → World :=
  λ w, emit (EvOpen path) (set_fs (<[path := []]> (fs w)) w).

Definition py_close (path : string) : World → World :=
  emit (EvClose path).

(** [f.write(data)] on a binary file: appends the content of a bytes
    object or of another bytes-like object, refuses anything else. *)
Definition f_write (path : string) (data : PyObj) : M World unit :=
  match data with
  | OBytes b | OBuffer b =>
      modify (λ w, emit (EvWrite path b)
                     (set_fs (<[path := default [] (fs w !! path) ++ b]> (fs w)) w))
  | _ => raise TypeError
  end.

(** [with open(path, "wb") as f: body]: the file is closed on every exit
    path, and whatever was written before a raise stays written. *)
Definition with_open_wb {A} (path : string) (body : M World A) : M World A :=
  λ w, finally body (py_close path) (py_open_wb path w).

(** ** The [for] statement *)

Definition chars_of (s : string) : list PyObj :=
  (λ c, OStr (String c "")) <$> String.list_ascii_of_string s.

Definition ints_of (b : list byte) : list PyObj :=
  (λ x, OInt (Z.of_N (Byte.to_N x))) <$> b.

(** Running [body] over the items of a value. *)
Fixpoint for_items (body : PyObj → M World unit) (items : list PyObj)
  : M World unit :=
  match items with
  | [] => mret tt
  | x :: rest => body x ;; for_items body rest
  end.

(** Running [body] over an iterator object [l]. Each round is one
    [next(l)]: it takes the head off the pending items in the store before
    the body runs, so a raise in the body leaves the rest unconsumed; when
    nothing is pending the iterator ends, normally or with its error, and
    stays exhausted. The body never touches [l] itself. *)
Fixpoint for_iterator (l : nat) (body : PyObj → M World unit)
    (items : list PyObj) (e : option PyExn) : M World unit :=
  match items with
  | [] =>
      modify (set_iter l exhausted) ;;
      match e with
      | None => mret tt
      | Some exn => raise exn
      end
  | x :: rest =>
      modify (set_iter l (mkIter rest e)) ;;
      body x ;;
      for_iterator l body rest e
  end.

(** [for x in o: body]. A reference the store does not know cannot arise
    in Python; it reads as an exhausted iterator. *)
Definition py_for (o : PyObj) (body : PyObj → M World unit) : M World unit :=
  match o with
  | OIterator l =>
      λ w, match iters w !! l with
           | Some st => for_iterator l body (pending st) (ending st) w
           | None => (Ok tt, w)
           end
  | OList items => for_items body items
  | OBytes b | OBuffer b => for_items body (ints_of b)
  | OStr s => for_items body (chars_of s)
  | ONone | OInt _ => raise TypeError
  end.

(** ** [GeneratorResponse] *)

Record GeneratorResponse : Type := mkGeneratorResponse {
  text : string;
  image_path : string;
  image_bytes : PyObj;
  audio_bytes : PyObj
}.

(** [GeneratorResponse()]: every field at its default; the audio default
    is a fresh empty list. *)
Definition default_response : GeneratorResponse :=
  mkGeneratorResponse "" "" (OBytes []) (OList []).

Definition save_image (self : GeneratorResponse) (path : string) : M World unit :=
  is_blob ← (if isinstance_bytes (image_bytes self)
             then n ← lift (py_len (image_bytes self)); mret (bool_decide (0 < n))
             else mret false);
  if is_blob : bool then
    with_open_wb path (f_write path (image_bytes self))
  else
    (* the message formats [len(self.image_bytes)] before the raise *)
    lift (py_len (image_bytes self)) ;;
    raise ValueError.

Definition save_audio (self : GeneratorResponse) (path : string) : M World unit :=
  if isinstance_Iterator (audio_bytes self) then
    with_open_wb path
      (py_for (audio_bytes self) (λ chunk, f_write path chunk))
  else
    raise ValueError.

(** ** [GeneratorConfig] *)

(** What the [model] field can hold at run time: a member of the
    enumeration, or (the annotation is not enforced) some other value,
    such as a bare string. *)
Inductive PyModel : Type :=
  | Member (m : AvailableModels)
  | Foreign (s : string).

Record GeneratorConfig : Type := mkGeneratorConfig {
  model : PyModel;
  API_KEY : string;
  SECRET_KEY : string;
  language : string
}.

(** The parsed command line, as far as [from_args] reads it. *)
Record Namespace : Type := mkNamespace {
  text_model : string;
  text_api_key : string;
  text_secret_key : string;
  image_model : string;
  image_api_key : string;
  image_secret_key : string;
  voice_model : string;
  voice_api_key : string;
  voice_secret_key : string;
  args_language : string
}.

Definition from_args (args : Namespace) : Result (list GeneratorConfig) :=
  let str_to_model := backward_mapping in
  m_text ← py_getitem str_to_model (text_model args);
  let text_model_config :=
    mkGeneratorConfig (Member m_text) (text_api_key args)
                      (text_secret_key args) (args_language args) in
  m_image ← py_getitem str_to_model (image_model args);
  let image_model_config :=
    mkGeneratorConfig (Member m_image) (image_api_key args)
                      (image_secret_key args) (args_language args) in
  m_tts ← py_getitem str_to_model (voice_model args);
  let tts_model_config :=
    mkGeneratorConfig (Member m_tts) (voice_api_key args)
                      (voice_secret_key args) (args_language args) in
  mret [text_model_config; image_model_config; tts_model_config].

(** [config.model.value]: only a member has a value. *)
Definition model_value (v : PyModel) : Result string :=
  match v with
  | Member m => Ok (value m)
  | Foreign _ => Raise AttributeError
  end.

(** ** Strings *)

(** [s.startswith(old)]. *)
Fixpoint starts_with (old s : string) : bool :=
  match old, s with
  | "", _ => true
  | String a old', String b s' => if decide (a = b) then starts_with old' s' else false
  | String _ _, "" => false
  end.

(** [old in s]. *)
Fixpoint py_contains (old s : string) : bool :=
  starts_with old s ||
  match s with
  | "" => false
  | String _ s' => py_contains old s'
  end.

(** The scan of [str.replace] for a non-empty [old]: left to right, a
    match at the current position is replaced and the scan resumes after
    it, so matches never overlap. [skip] counts the characters of the
    current match that remain to be passed over. *)
Fixpoint replace_scan (skip : nat) (old new s : string) : string :=
  match s with
  | "" => ""
  | String c s' =>
      match skip with
      | S k => replace_scan k old new s'
      | 0 =>
          if starts_with old s
          then new +:+ replace_scan (String.length old - 1) old new s'
          else String c (replace_scan 0 old new s')
      end
  end.

(** With an empty [old], [new] goes before every character and at the end. *)
Fixpoint intersperse_all (new s : string) : string :=
  match s with
  | "" => new
  | String c s' => new +:+ String c (intersperse_all new s')
  end.

(** [s.replace(old, new)]. *)
Definition py_replace (s old new : string) : string :=
  match old with
  | "" => intersperse_all new s
  | String _ _ => replace_scan 0 old new s
  end.

(** ** Inputs of generators *)

Record WordWithContext : Type := mkWordWithContext {
  word : string;
  context : option string
}.

(** [Union[WordWithContext, str]]. *)
Inductive GenInput : Type :=
  | InWord (w : WordWithContext)
  | InStr (s : string).

(** How a context prints inside a formatted message. *)
Definition format_context (c : option string) : string :=
  default "None" c.

(** ** Provider calls *)

(** What lies outside the repository's code: the remote services, the
    system prompt of the language module and the configured OpenAI key.
    A service answers a request or raises. *)
Record Providers : Type := mkProviders {
  requests_post : RemoteRequest → Result IterState;
  cohere_chat : RemoteRequest → Result string;
  openai_chat : RemoteRequest → Result string;
  kandinsky_generate_image : RemoteRequest → Result PyObj;
  get_system_prompt_by_language : Result string;
  OPENAI_API_KEY : string
}.

(** A remote call: recorded in the log, answered by the service. *)
Definition remote {A} (service : RemoteRequest → Result A) (req : RemoteRequest)
  : M World A :=
  λ w, (service req, emit (EvRemote req) w).

(** A fresh iterator object over a response's chunk stream. *)
Definition iter_content (stream : IterState) : M World PyObj :=
  λ w, let l := fresh (dom (iters w)) in (Ok (OIterator l), set_iter l stream w).

Module ElevenlabsAudio.

Definition URL_prefix : string := "https://api.elevenlabs.io/v1/text-to-speech/".

Definition HEADERS : gmap string string :=
  py_dict [ ("Accept", "audio/mpeg");
            ("Content-Type", "application/json");
            ("xi-api-key", "<xi-api-key>") ].

Definition ENGLISH_VOICE_ID : string := "P7x743VjyZEOihNNygQ9".
Definition GERMAN_VOICE_ID : string := "MHxgWgZ7ayjcFagtPw59".

Definition VOICE_IDS : gmap string string :=
  py_dict [ ("english", ENGLISH_VOICE_ID); ("german", GERMAN_VOICE_ID) ].

Definition MODEL1 : string := "eleven_monolingual_v1".

(** An instance; the constant voice settings are not represented. *)
Record t : Type := mk {
  voice_id : string;
  xi_api_key : string;
  model_id : string
}.

(** [URL.format(self.voice_id)]. *)
Definition url (self : t) : string := URL_prefix +:+ voice_id self.

Definition headers (self : t) : gmap string string :=
  <["xi-api-key" := xi_api_key self]> HEADERS.

Definition request (self : t) (text : string) : RemoteRequest :=
  ReqHttpPost (url self) (headers self) text (model_id self).

Definition post (env : Providers) (self : t) (text : string) : M World IterState :=
  remote (requests_post env) (request self text).

Definition generate_audio (env : Providers) (text xi_api_key language : string)
  : M World PyObj :=
  voice_id ← lift (py_getitem VOICE_IDS language);
  response ← post env (mk voice_id xi_api_key MODEL1) text;
  iter_content response.

End ElevenlabsAudio.

Definition user_message (word_with_context : WordWithContext) : string :=
  "WORD: [" +:+ word word_with_context +:+ "]; CONTEXT: ["
  +:+ format_context (context word_with_context) +:+ "]".

Definition newline : string := String (Ascii.ascii_of_nat 10) "".

Definition chat_generate_text (env : Providers)
    (word_with_context : WordWithContext) (model : string) : M World string :=
  system_prompt ← lift (get_system_prompt_by_language env);
  let messages := [ ("system", system_prompt);
                    ("user", user_message word_with_context) ] in
  remote (openai_chat env)
         (ReqOpenAIChat (OPENAI_API_KEY env) model messages 512).

Definition cohere_generate_text (env : Providers)
    (word_with_context : WordWithContext) (api_key : string) : M World string :=
  system_prompt ← lift (get_system_prompt_by_language env);
  let message :=
    newline +:+ "    " +:+ system_prompt +:+ newline +:+
    "    " +:+ user_message word_with_context +:+ newline +:+ "    " in
  text ← remote (cohere_chat env) (ReqCohereChat api_key message 512);
  let text := py_replace text (word word_with_context) "" in
  mret text.

(** ** The generator hierarchy *)

Inductive GeneratorClass : Type :=
  | GPTextGenerator
  | CohereTextGenerator
  | KandinskyImageGenerator
  | ElevenlabsTTSGenerator.

#[global] Instance GeneratorClass_eq_dec : EqDecision GeneratorClass.
Proof. solve_decision. Defined.

(** A generator object: its runtime class and the configuration that
    [Generator.__init__] stores. *)
Record Generator : Type := mkGenerator {
  cls : GeneratorClass;
  config : GeneratorConfig
}.

(** [len(s)] as a truth value. *)
Definition nonempty (s : string) : bool := negb (Nat.eqb (String.length s) 0).

Definition Generator_init (c : GeneratorClass) (cfg : GeneratorConfig)
  : M World Generator :=
  mret (mkGenerator c cfg).

Definition KandinskyImageGenerator_init (cfg : GeneratorConfig) : M World Generator :=
  self ← Generator_init KandinskyImageGenerator cfg;
  py_assert (nonempty (API_KEY (config self))) ;;
  py_assert (nonempty (SECRET_KEY (config self))) ;;
  mret self.

Definition ElevenlabsTTSGenerator_init (cfg : GeneratorConfig) : M World Generator :=
  self ← Generator_init ElevenlabsTTSGenerator cfg;
  py_assert (nonempty (API_KEY (config self))) ;;
  mret self.

(** Calling a class: the two text generators inherit the base constructor. *)
Definition construct (c : GeneratorClass) (cfg : GeneratorConfig) : M World Generator :=
  match c with
  | GPTextGenerator => Generator_init GPTextGenerator cfg
  | CohereTextGenerator => Generator_init CohereTextGenerator cfg
  | KandinskyImageGenerator => KandinskyImageGenerator_init cfg
  | ElevenlabsTTSGenerator => ElevenlabsTTSGenerator_init cfg
  end.

Definition with_text (t : string) : GeneratorResponse :=
  mkGeneratorResponse t (image_path default_response)
    (image_bytes default_response) (audio_bytes default_response).
Definition with_image_bytes (b : PyObj) : GeneratorResponse :=
  mkGeneratorResponse (text default_response) (image_path default_response)
    b (audio_bytes default_response).
Definition with_audio_bytes (a : PyObj) : GeneratorResponse :=
  mkGeneratorResponse (text default_response) (image_path default_response)
    (image_bytes default_response) a.

Section Generators.
Context (env : Providers).

Definition GPTextGenerator_generate (self : Generator) (input_ : GenInput)
  : M World GeneratorResponse :=
  match input_ with
  | InWord w =>
      name ← lift (model_value (model (config self)));
      text ← chat_generate_text env w name;
      mret (with_text text)
  | InStr _ => raise ValueError
  end.

Definition CohereTextGenerator_generate (self : Generator) (input_ : GenInput)
  : M World GeneratorResponse :=
  match input_ with
  | InWord w =>
      text ← cohere_generate_text env w (API_KEY (config self));
      mret (with_text text)
  | InStr _ => raise ValueError
  end.

Definition KandinskyImageGenerator_generate (self : Generator) (input_ : GenInput)
  : M World GeneratorResponse :=
  match input_ with
  | InStr s =>
      image_bytes ← remote (kandinsky_generate_image env)
                      (ReqKandinsky s (API_KEY (config self))
                                    (SECRET_KEY (config self)));
      mret (with_image_bytes image_bytes)
  | InWord _ => raise ValueError
  end.

Definition ElevenlabsTTSGenerator_generate (self : Generator) (input_ : GenInput)
  : M World GeneratorResponse :=
  match input_ with
  | InStr s =>
      audio_bytes ← ElevenlabsAudio.generate_audio env s
                      (API_KEY (config self)) (language (config self));
      mret (with_audio_bytes audio_bytes)
  | InWord _ => raise ValueError
  end.

(** [self.generate(input_)], by the runtime class of [self]. *)
Definition generate (self : Generator) (input_ : GenInput)
  : M World GeneratorResponse :=
  match cls self with
  | GPTextGenerator => GPTextGenerator_generate self input_
  | CohereTextGenerator => CohereTextGenerator_generate self input_
  | KandinskyImageGenerator => KandinskyImageGenerator_generate self input_
  | ElevenlabsTTSGenerator => ElevenlabsTTSGenerator_generate self input_
  end.

End Generators.

(** ** [GeneratorFactory] *)

Definition MAPPING : gmap AvailableModels GeneratorClass :=
  py_dict [ (GPT_3_5_turbo, GPTextGenerator);
            (GPT_4o, GPTextGenerator);
            (KANDINSKY_3, KandinskyImageGenerator);
            (ELEVENLABS, ElevenlabsTTSGenerator);
            (COHERE, CohereTextGenerator) ].

(** [v in models]: a value that is not a member equals no member. *)
Definition py_in_models (v : PyModel) (models : gset AvailableModels) : bool :=
  match v with
  | Member m => bool_decide (m ∈ models)
  | Foreign _ => false
  end.

(** [MAPPING[v]]. *)
Definition MAPPING_getitem (v : PyModel) : Result GeneratorClass :=
  match v with
  | Member m =>
      match MAPPING !! m with
      | Some c => Ok c
      | None => Raise (KeyError (value m))
      end
  | Foreign s => Raise (KeyError s)
  end.

Definition create (config : GeneratorConfig) : M World Generator :=
  if py_in_models (model config) available_models then
    c ← lift (MAPPING_getitem (model config));
    construct c config
  else
    raise ValueError.

(** ** The pipeline of [read-generate-import.py] *)

(** Modelled from the spec: [generator.entities.CardRawDataV1] is not among
    the sources; the specification gives it a word, a text, an image
    reference and an audio reference. The pipeline reads only the word. *)
Record CardRawDataV1 : Type := mkCard {
  card_word : string;
  card_text : string;
  card_image : string;
  card_audio : string
}.

(** A [dict[WordWithContext, CardRawDataV1]], in insertion order. *)
Definition CardDict : Type := list (WordWithContext * CardRawDataV1).

(** The collaborators of the pipeline, over their own state [Ext] (the
    deck, the processing directory): validation, storage, import and card
    generation. Each may raise. Card generation also drives the generators
    and so runs over the world as well. *)
Record Collaborators (Ext : Type) : Type := mkCollaborators {
  filter_words_are_present_in_deck :
    list WordWithContext → M Ext (list WordWithContext);
  cards_in_directory : M Ext (list CardRawDataV1);
  discard_invalid_cards : list CardRawDataV1 → M Ext (list CardRawDataV1);
  cards_to_dict : list CardRawDataV1 → CardDict;
  import_card_collection : CardDict → M Ext unit;
  generate_text_and_image :
    list WordWithContext → list Generator → M (Ext * World) CardDict
}.
Arguments filter_words_are_present_in_deck {Ext} _ _ _.
Arguments cards_in_directory {Ext} _ _.
Arguments discard_invalid_cards {Ext} _ _ _.
Arguments cards_to_dict {Ext} _ _.
Arguments import_card_collection {Ext} _ _ _.
Arguments generate_text_and_image {Ext} _ _ _ _.

(** The state of a run: the collaborators' state, the world, and a record
    of the word lists handed to card generation. *)
Record PState (Ext : Type) : Type := mkPState {
  ext : Ext;
  world : World;
  generation_calls : list (list WordWithContext)
}.
Arguments mkPState {Ext} _ _ _.
Arguments ext {Ext} _.
Arguments world {Ext} _.
Arguments generation_calls {Ext} _.

Definition on_ext {Ext A} (m : M Ext A) : M (PState Ext) A :=
  λ s, let '(r, e) := m (ext s) in (r, mkPState e (world s) (generation_calls s)).

Definition on_world {Ext A} (m : M World A) : M (PState Ext) A :=
  λ s, let '(r, w) := m (world s) in (r, mkPState (ext s) w (generation_calls s)).

Definition on_both {Ext A} (m : M (Ext * World) A) : M (PState Ext) A :=
  λ s, let '(r, (e, w)) := m (ext s, world s) in
       (r, mkPState e w (generation_calls s)).

Definition record_generation {Ext} (ws : list WordWithContext) : M (PState Ext) unit :=
  modify (λ s, mkPState (ext s) (world s) (generation_calls s ++ [ws])).

(** [list(map(f, xs))] for an [f] that may raise: left to right, stopping
    at the first raise. *)
Fixpoint py_map {S A B} (f : A → M S B) (xs : list A) : M S (list B) :=
  match xs with
  | [] => mret []
  | x :: rest => y ← f x; ys ← py_map f rest; mret (y :: ys)
  end.

Definition exclude_imported_words (input_words : list WordWithContext)
    (imported_existing_words : list string) : list WordWithContext :=
  if bool_decide (1 ≤ length imported_existing_words)%nat then
    filter (λ word_with_context, word word_with_context ∉ imported_existing_words)
           input_words
  else input_words.

Section Pipeline.
Context {Ext : Type} (col : Collaborators Ext).

Definition process_existing_cards (input_words : list WordWithContext)
  : M (PState Ext) (list string) :=
  filtered_words ← on_ext (filter_words_are_present_in_deck col input_words);
  let input_words_without_context := word <$> filtered_words in
  cards ← on_ext (cards_in_directory col);
  let relevant_cards_in_directory :=
    filter (λ card, card_word card ∈ input_words_without_context) cards in
  existing_cards_validated ←
    on_ext (discard_invalid_cards col relevant_cards_in_directory);
  let existing_cards_data := cards_to_dict col existing_cards_validated in
  on_ext (import_card_collection col existing_cards_data) ;;
  let imported_existing_words := (λ item, word item.1) <$> existing_cards_data in
  mret imported_existing_words.

Definition process_new_cards (input_words : list WordWithContext)
    (generators : list Generator) : M (PState Ext) unit :=
  filtered_words ← on_ext (filter_words_are_present_in_deck col input_words);
  record_generation filtered_words ;;
  generated_cards_data ←
    on_both (generate_text_and_image col filtered_words generators);
  on_ext (import_card_collection col generated_cards_data).

(** The processing part of [main], after the input file has been read. *)
Definition main_processing (args : Namespace) (input_words : list WordWithContext)
  : M (PState Ext) unit :=
  imported_existing_words ← process_existing_cards input_words;
  let input_words_except_imported :=
    exclude_imported_words input_words imported_existing_words in
  generators_configs ← lift (from_args args);
  generators ← py_map (λ generator_config, on_world (create generator_config))
                      generators_configs;
  process_new_cards input_words_except_imported generators.

End Pipeline.

(** ** Vocabulary of the properties *)

Definition empty_world : World := mkWorld ∅ ∅ [].

(** A world whose only object is iterator [0], with the given stream. *)
Definition world_with_stream (items : list PyObj) (e : option PyExn) : World :=
  mkWorld ∅ {[ 0 := mkIter items e ]} [].

Definition chunk_ab : list byte := ["a"; "b"]%byte.
Definition chunk_c : list byte := ["c"]%byte.

(** The mapping the specification declares for the factory, written out
    from its words; it is compared with [MAPPING] below. *)
Definition declared_class (m : AvailableModels) : GeneratorClass :=
  match m with
  | GPT_4o | GPT_3_5_turbo => GPTextGenerator
  | COHERE => CohereTextGenerator
  | KANDINSKY_3 => KandinskyImageGenerator
  | ELEVENLABS => ElevenlabsTTSGenerator
  end.

(** The credentials a class insists on when it is constructed. *)
Definition required_credentials_present (c : GeneratorClass) (cfg : GeneratorConfig)
  : bool :=
  match c with
  | KandinskyImageGenerator => nonempty (API_KEY cfg) && nonempty (SECRET_KEY cfg)
  | ElevenlabsTTSGenerator => nonempty (API_KEY cfg)
  | GPTextGenerator | CohereTextGenerator => true
  end.

(** The remote requests among the events of a log. *)
Definition remote_requests (events : list Event) : list RemoteRequest :=
  omap (λ e, match e with EvRemote r => Some r | _ => None end) events.

Definition is_bytes_obj (o : PyObj) : bool := isinstance_bytes o.

(** The leading chunks of a list of items that a binary file accepts,
    up to the first item that is not bytes-like. *)
Fixpoint bytes_prefix (items : list PyObj) : list (list byte) :=
  match items with
  | OBytes b :: rest | OBuffer b :: rest => b :: bytes_prefix rest
  | _ => []
  end.

(** What is left of the items after the first one that is not bytes-like. *)
Fixpoint after_bad_item (items : list PyObj) : option (list PyObj) :=
  match items with
  | [] => None
  | OBytes _ :: rest | OBuffer _ :: rest => after_bad_item rest
  | _ :: rest => Some rest
  end.

(** How a loop that writes every item to a binary file leaves an iterator
    with the given pending items and ending: the outcome of the loop and
    the state of the iterator afterwards. An item that is not bytes-like
    stops the loop with the [TypeError] of the write, the later items
    still pending; otherwise the iterator ends as it is bound to. *)
Definition drained (items : list PyObj) (e : option PyExn) : Result unit * IterState :=
  match after_bad_item items with
  | Some rest => (Raise TypeError, mkIter rest e)
  | None => (match e with None => Ok tt | Some exn => Raise exn end, exhausted)
  end.

(** An iterable of bytes, in the specification's words: a list whose items
    are all bytes objects, or an iterator that yields only bytes objects
    and ends normally. *)
Definition iterable_of_bytes (w : World) (o : PyObj) : bool :=
  match o with
  | OList items => forallb is_bytes_obj items
  | OIterator l =>
      match iters w !! l with
      | Some st => forallb is_bytes_obj (pending st) && bool_decide (ending st = None)
      | None => false
      end
  | _ => false
  end.

(** [w] occurs in [s] as a substring. *)
Definition occurs (w s : string) : Prop :=
  ∃ before after, s = before +:+ w +:+ after.

(** No occurrence of [w] starts inside [before] when [before] is followed
    by [rest]. *)
Fixpoint no_match_inside (w before rest : string) : bool :=
  match before with
  | "" => true
  | String _ before' =>
      negb (starts_with w (before +:+ rest)) && no_match_inside w before' rest
  end.

(** In [before +:+ w +:+ after], the displayed occurrence of [w] is the
    leftmost one. *)
Definition leftmost_at (w before after : string) : bool :=
  no_match_inside w before (w +:+ after).

(** The message and the request [cohere_generate_text] sends for a word,
    given the system prompt. *)
Definition cohere_request (api_key system_prompt : string)
    (word_with_context : WordWithContext) : RemoteRequest :=
  ReqCohereChat api_key
    (newline +:+ "    " +:+ system_prompt +:+ newline +:+
     "    " +:+ user_message word_with_context +:+ newline +:+ "    ")
    512.

(** Providers whose chat services answer every request with [answer]. *)
Definition constant_providers (answer : string) : Providers :=
  mkProviders (λ _, Ok exhausted) (λ _, Ok answer) (λ _, Ok answer)
              (λ _, Ok (OBytes [])) (Ok "PROMPT") "sk-test".






(** ** Further vocabulary *)

(** The paths opened and the paths closed in a log. *)
Definition opened (events : list Event) : list string :=
  omap (λ e, match e with EvOpen p => Some p | _ => None end) events.
Definition closed (events : list Event) : list string :=
  omap (λ e, match e with EvClose p => Some p | _ => None end) events.

(** The objects a binary file accepts in a write: bytes objects and the
    other bytes-like objects. *)
Definition is_bytes_like (o : PyObj) : bool :=
  match o with
  | OBytes _ | OBuffer _ => true
  | _ => false
  end.

(** The kind of input the [generate] of a class takes: a word with its
    context for the text generators, a string for the other two. *)
Definition accepts_input (c : GeneratorClass) (input_ : GenInput) : bool :=
  match c, input_ with
  | (GPTextGenerator | CohereTextGenerator), InWord _ => true
  | (KandinskyImageGenerator | ElevenlabsTTSGenerator), InStr _ => true
  | _, _ => false
  end.

(** The construction of the generators in [main]: the configurations of
    [from_args], each handed to the factory, left to right. *)
Definition construct_generators (args : Namespace) : M World (list Generator) :=
  generators_configs ← lift (from_args args);
  py_map (λ generator_config, create generator_config) generators_configs.

(** The request the text-to-speech generator sends for a voice. *)
Definition tts_request (self : Generator) (voice text : string) : RemoteRequest :=
  ReqHttpPost (ElevenlabsAudio.URL_prefix +:+ voice)
    (<["xi-api-key" := API_KEY (config self)]> ElevenlabsAudio.HEADERS)
    text ElevenlabsAudio.MODEL1.

(** The request the image generator sends for a prompt. *)
Definition image_request (self : Generator) (prompt : string) : RemoteRequest :=
  ReqKandinsky prompt (API_KEY (config self)) (SECRET_KEY (config self)).

#[global] Instance WordWithContext_eq_dec : EqDecision WordWithContext.
Proof. solve_decision. Defined.

(** How often a word with context occurs in a list. *)
Definition occurrences (w : WordWithContext) (ws : list WordWithContext) : nat :=
  length (filter (λ x, x = w) ws).





(** Providers whose speech service streams the given chunks and whose
    image service returns the given object. *)
Definition media_providers (chunks : list (list byte)) (image : PyObj) : Providers :=
  mkProviders (λ _, Ok (mkIter (OBytes <$> chunks) None))
              (λ _, Ok "") (λ _, Ok "")
              (λ _, Ok image) (Ok "PROMPT") "sk-test".

Definition example_tts : Generator :=
  mkGenerator ElevenlabsTTSGenerator
    (mkGeneratorConfig (Member ELEVENLABS) "voice-key" "" "german").

Definition example_cohere : Generator :=
  mkGenerator CohereTextGenerator
    (mkGeneratorConfig (Member COHERE) "text-key" "" "german").

(** * Properties *)

(** ** The effect monad *)

Lemma bind_eq {S A B} (m : M S A) (k : A → M S B) (s : S) :
  (m ≫= k) s = match m s with
               | (Ok a, s') => k a s'
               | (Raise e, s') => (Raise e, s')
               end.
Proof. reflexivity. Qed.

Lemma bind_ret {S A B} (a : A) (k : A → M S B) (s : S) :
  (mret a ≫= k) s = k a s.
Proof. reflexivity. Qed.

(** ** Capability model *)

Lemma backward_mapping_value (m : AvailableModels) :
  backward_mapping !! value m = Some m.
Proof. by destruct m. Qed.

Lemma backward_mapping_inv (s : string) (m : AvailableModels) :
  backward_mapping !! s = Some m → value m = s.
Proof.
  unfold backward_mapping, py_dict; simpl. intros H.
  repeat (apply lookup_insert_Some in H as [[<- <-]|[_ H]]; [done|]).
  by rewrite lookup_empty in H.
Qed.

Lemma backward_mapping_None (s : string) :
  backward_mapping !! s = None ↔ ¬ declared_wire_string s.
Proof.
  split.
  - intros H [m <-]. by rewrite backward_mapping_value in H.
  - intros H. destruct (backward_mapping !! s) as [m|] eqn:E; [|done].
    exfalso. apply H. exists m. by apply backward_mapping_inv.
Qed.

Lemma py_getitem_backward_mapping (s : string) :
  match py_getitem backward_mapping s with
  | Ok m => value m = s
  | Raise e => e = KeyError s ∧ ¬ declared_wire_string s
  end.
Proof.
  unfold py_getitem. destruct (backward_mapping !! s) as [m|] eqn:E.
  - by apply backward_mapping_inv.
  - split; [done|]. by apply backward_mapping_None.
Qed.

Lemma value_inj : Inj (=) (=) value.
Proof. intros m1 m2 H. destruct m1, m2; by inversion H. Qed.

(** C8. The reverse lookup is total over the declared members and
    round-trips with the wire string: [backward_mapping()[m.value]] is
    [m] for every member [m], and distinct members have distinct wire
    strings. A string that is not a declared wire string is looked up
    with a [KeyError] carrying that string, never with a default member;
    [from_args] resolves its three provider strings in the order text,
    image, voice, returns the three configurations when all three are
    declared, and otherwise raises the [KeyError] of an undeclared one. *)
Theorem backward_mapping_roundtrip :
  (∀ m, py_getitem backward_mapping (value m) = Ok m) ∧
  (∀ m1 m2, value m1 = value m2 → m1 = m2) ∧
  (∀ s, match py_getitem backward_mapping s with
        | Ok m => value m = s
        | Raise e => e = KeyError s ∧ ¬ declared_wire_string s
        end) ∧
  (∀ args, match from_args args with
           | Ok cfgs =>
               ∃ m1 m2 m3,
                 value m1 = text_model args ∧
                 value m2 = image_model args ∧
                 value m3 = voice_model args ∧
                 cfgs = [ mkGeneratorConfig (Member m1) (text_api_key args)
                            (text_secret_key args) (args_language args);
                          mkGeneratorConfig (Member m2) (image_api_key args)
                            (image_secret_key args) (args_language args);
                          mkGeneratorConfig (Member m3) (voice_api_key args)
                            (voice_secret_key args) (args_language args) ]
           | Raise e =>
               ∃ k, e = KeyError k ∧ ¬ declared_wire_string k ∧
                    k ∈ [text_model args; image_model args; voice_model args]
           end).
Proof.
  split_and!.
  - intros m. unfold py_getitem. by rewrite backward_mapping_value.
  - apply value_inj.
  - apply py_getitem_backward_mapping.
  - intros args. unfold from_args.
    pose proof (py_getitem_backward_mapping (text_model args)) as H1.
    pose proof (py_getitem_backward_mapping (image_model args)) as H2.
    pose proof (py_getitem_backward_mapping (voice_model args)) as H3.
    destruct (py_getitem backward_mapping (text_model args)) as [m1|e1]; simpl.
    2: { destruct H1 as [-> H1]. eexists; split_and!; [done..|set_solver]. }
    destruct (py_getitem backward_mapping (image_model args)) as [m2|e2]; simpl.
    2: { destruct H2 as [-> H2]. eexists; split_and!; [done..|set_solver]. }
    destruct (py_getitem backward_mapping (voice_model args)) as [m3|e3]; simpl.
    2: { destruct H3 as [-> H3]. eexists; split_and!; [done..|set_solver]. }
    by exists m1, m2, m3.
Qed.

(** C9. [available_models()] is the union of the text, image and
    text-to-speech sets; the three sets are pairwise disjoint, so the
    union counts every member once and every declared member lies in
    exactly one capability class. *)
Theorem available_models_partition :
  available_models =
    available_text_models ∪ available_image_models ∪ available_tts_models ∧
  available_text_models ## available_image_models ∧
  available_text_models ## available_tts_models ∧
  available_image_models ## available_tts_models ∧
  size available_models =
    size available_text_models + size available_image_models
    + size available_tts_models ∧
  (∀ m, (m ∈ available_text_models ∧ (m ∉ available_image_models)
           ∧ (m ∉ available_tts_models)) ∨
        ((m ∉ available_text_models) ∧ m ∈ available_image_models
           ∧ (m ∉ available_tts_models)) ∨
        ((m ∉ available_text_models) ∧ (m ∉ available_image_models)
           ∧ m ∈ available_tts_models)).
Proof.
  split_and!; try by apply (bool_decide_unpack _).
  intros m.
  destruct m; [left|left|left|right; left|right; right];
    split_and!; by apply (bool_decide_unpack _).
Qed.

(** ** Construction and the factory *)

Lemma nonempty_true (s : string) : nonempty s = true ↔ s ≠ "".
Proof. destruct s; simpl; split; done. Qed.

Lemma KandinskyImageGenerator_init_eq (cfg : GeneratorConfig) (w : World) :
  KandinskyImageGenerator_init cfg w =
    (if nonempty (API_KEY cfg) && nonempty (SECRET_KEY cfg)
     then Ok (mkGenerator KandinskyImageGenerator cfg)
     else Raise AssertionError, w).
Proof.
  unfold KandinskyImageGenerator_init, Generator_init.
  rewrite bind_ret. simpl config. rewrite bind_eq.
  destruct (nonempty (API_KEY cfg)); simpl; [|done].
  rewrite bind_eq. by destruct (nonempty (SECRET_KEY cfg)).
Qed.

Lemma ElevenlabsTTSGenerator_init_eq (cfg : GeneratorConfig) (w : World) :
  ElevenlabsTTSGenerator_init cfg w =
    (if nonempty (API_KEY cfg)
     then Ok (mkGenerator ElevenlabsTTSGenerator cfg)
     else Raise AssertionError, w).
Proof.
  unfold ElevenlabsTTSGenerator_init, Generator_init.
  rewrite bind_ret. simpl config. rewrite bind_eq.
  by destruct (nonempty (API_KEY cfg)).
Qed.

Lemma construct_eq (c : GeneratorClass) (cfg : GeneratorConfig) (w : World) :
  construct c cfg w =
    (if required_credentials_present c cfg
     then Ok (mkGenerator c cfg) else Raise AssertionError, w).
Proof.
  destruct c; simpl.
  - done.
  - done.
  - apply KandinskyImageGenerator_init_eq.
  - apply ElevenlabsTTSGenerator_init_eq.
Qed.

Lemma MAPPING_declared (m : AvailableModels) :
  MAPPING !! m = Some (declared_class m).
Proof. by destruct m. Qed.

Lemma all_available (m : AvailableModels) : m ∈ available_models.
Proof.
  unfold available_models, available_text_models, available_image_models,
    available_tts_models. destruct m; set_solver.
Qed.

Lemma create_eq (cfg : GeneratorConfig) (w : World) :
  create cfg w =
    (match model cfg with
     | Member m =>
         if required_credentials_present (declared_class m) cfg
         then Ok (mkGenerator (declared_class m) cfg)
         else Raise AssertionError
     | Foreign _ => Raise ValueError
     end, w).
Proof.
  unfold create. destruct (model cfg) as [m|s] eqn:E; simpl; [|done].
  rewrite bool_decide_eq_true_2 by apply all_available.
  rewrite bind_eq. unfold lift. rewrite MAPPING_declared.
  apply construct_eq.
Qed.

(** C5. Constructing the image generator with an empty API key or an empty
    secret key, or the text-to-speech generator with an empty API key,
    fails with the constructor's assertion error; with the required
    credentials non-empty it returns the generator. In both cases the
    world is left as it was, so no remote request has been made by the
    time construction returns or fails. *)
Theorem construction_checks_credentials (cfg : GeneratorConfig) (w : World) :
  KandinskyImageGenerator_init cfg w =
    (if bool_decide (API_KEY cfg ≠ "" ∧ SECRET_KEY cfg ≠ "")
     then Ok (mkGenerator KandinskyImageGenerator cfg)
     else Raise AssertionError, w) ∧
  ElevenlabsTTSGenerator_init cfg w =
    (if bool_decide (API_KEY cfg ≠ "")
     then Ok (mkGenerator ElevenlabsTTSGenerator cfg)
     else Raise AssertionError, w) ∧
  remote_requests (log (KandinskyImageGenerator_init cfg w).2)
    = remote_requests (log w) ∧
  remote_requests (log (ElevenlabsTTSGenerator_init cfg w).2)
    = remote_requests (log w).
Proof.
  rewrite KandinskyImageGenerator_init_eq, ElevenlabsTTSGenerator_init_eq.
  split_and!; try done.
  - f_equal. case_bool_decide as H.
    + destruct H as [H1%nonempty_true H2%nonempty_true]. by rewrite H1, H2.
    + destruct (nonempty (API_KEY cfg)) eqn:E1,
        (nonempty (SECRET_KEY cfg)) eqn:E2; simpl; try done.
      apply nonempty_true in E1, E2. naive_solver.
  - f_equal. case_bool_decide as H.
    + apply nonempty_true in H. by rewrite H.
    + destruct (nonempty (API_KEY cfg)) eqn:E1; [|done].
      apply nonempty_true in E1. naive_solver.
Qed.

(** C2, as the code has it. [create] dispatches on [config.model]: for a
    member of the enumeration (every member is in [available_models()])
    it calls the class the declared mapping gives and returns a generator
    of that runtime class holding the configuration, provided the
    credentials that class requires are non-empty; when one of them is
    empty the constructor's assertion error comes out of [create]. For a
    model value that is not in [available_models()] it raises
    [ValueError]. *)
Theorem create_dispatch (cfg : GeneratorConfig) (w : World) :
  create cfg w =
    (match model cfg with
     | Member m =>
         if required_credentials_present (declared_class m) cfg
         then Ok (mkGenerator (declared_class m) cfg)
         else Raise AssertionError
     | Foreign _ => Raise ValueError
     end, w) ∧
  (∀ m, m ∈ available_models ∧ MAPPING !! m = Some (declared_class m)) ∧
  (py_in_models (model cfg) available_models = true ↔ ∃ m, model cfg = Member m).
Proof.
  split_and!.
  - apply create_eq.
  - intros m. split; [apply all_available | apply MAPPING_declared].
  - destruct (model cfg) as [m|s]; simpl.
    + rewrite bool_decide_eq_true. split; [eauto | intros _; apply all_available].
    + split; [done | by intros [m Hm]].
Qed.

(** C2, as stated, fails: the image model is in [available_models()], yet
    with the default empty credentials [create] returns no generator. *)
Lemma create_available_model_fails :
  let cfg := mkGeneratorConfig (Member KANDINSKY_3) "" "" "english" in
  py_in_models (model cfg) available_models = true ∧
  create cfg empty_world = (Raise AssertionError, empty_world) ∧
  ¬ (∀ cfg' w, py_in_models (model cfg') available_models = true →
               ∃ g, (create cfg' w).1 = Ok g).
Proof.
  split_and!; [done..|].
  intros H.
  destruct (H (mkGeneratorConfig (Member KANDINSKY_3) "" "" "english")
              empty_world eq_refl) as [g Hg].
  discriminate Hg.
Qed.

(** ** Text to speech *)

Lemma VOICE_IDS_lookup (lang : string) :
  ElevenlabsAudio.VOICE_IDS !! lang =
    if decide (lang = "english") then Some ElevenlabsAudio.ENGLISH_VOICE_ID
    else if decide (lang = "german") then Some ElevenlabsAudio.GERMAN_VOICE_ID
    else None.
Proof.
  unfold ElevenlabsAudio.VOICE_IDS, py_dict; simpl.
  repeat case_decide; subst; simplify_map_eq; done.
Qed.

(** C4. For a text input, the text-to-speech generator looks the
    configured language up in the voice table. A language without an
    entry makes [generate] fail with the [KeyError] of that language, the
    world untouched: no request is sent and no voice stands in. A language
    with an entry sends exactly one request, to the URL of that
    language's voice, and the response's chunk iterator becomes the
    [audio_bytes] of the returned response. The table has entries for
    english and german only. *)
Theorem tts_voice_selection (env : Providers) (self : Generator)
    (text : string) (w : World) :
  match ElevenlabsAudio.VOICE_IDS !! language (config self) with
  | None =>
      ElevenlabsTTSGenerator_generate env self (InStr text) w
        = (Raise (KeyError (language (config self))), w)
  | Some voice =>
      let req :=
        ReqHttpPost (ElevenlabsAudio.URL_prefix +:+ voice)
          (<["xi-api-key" := API_KEY (config self)]> ElevenlabsAudio.HEADERS)
          text ElevenlabsAudio.MODEL1 in
      let '(r, w') := ElevenlabsTTSGenerator_generate env self (InStr text) w in
      log w' = log w ++ [EvRemote req] ∧
      fs w' = fs w ∧
      match requests_post env req with
      | Raise e => r = Raise e ∧ iters w' = iters w
      | Ok stream =>
          ∃ l, r = Ok (with_audio_bytes (OIterator l)) ∧
               iters w !! l = None ∧
               iters w' = <[l := stream]> (iters w)
      end
  end ∧
  ∀ lang, ElevenlabsAudio.VOICE_IDS !! lang =
            if decide (lang = "english") then Some ElevenlabsAudio.ENGLISH_VOICE_ID
            else if decide (lang = "german") then Some ElevenlabsAudio.GERMAN_VOICE_ID
            else None.
Proof.
  split; [|apply VOICE_IDS_lookup].
  unfold ElevenlabsTTSGenerator_generate, ElevenlabsAudio.generate_audio.
  rewrite !bind_eq. unfold lift, py_getitem.
  destruct (ElevenlabsAudio.VOICE_IDS !! language (config self)) as [voice|];
    [|done].
  unfold ElevenlabsAudio.post, remote. rewrite bind_eq.
  unfold ElevenlabsAudio.request, ElevenlabsAudio.url, ElevenlabsAudio.headers.
  simpl.
  destruct (requests_post env _) as [stream|e]; simpl; [|done].
  split_and!; [done..|].
  eexists. split_and!; [done| |done].
  apply not_elem_of_dom, is_fresh.
Qed.

(** ** Saving artifacts *)

Lemma for_iterator_write (l : nat) (path : string) (items : list PyObj)
    (e : option PyExn) (w : World) (acc : list byte) :
  fs w !! path = Some acc →
  for_iterator l (f_write path) items e w =
    ((drained items e).1,
     mkWorld (<[path := acc ++ concat (bytes_prefix items)]> (fs w))
             (<[l := (drained items e).2]> (iters w))
             (log w ++ (EvWrite path <$> bytes_prefix items))).
Proof.
  revert w acc. induction items as [|x rest IH]; intros w acc Hacc.
  - simpl. rewrite bind_eq. unfold modify, set_iter, drained. simpl.
    rewrite !app_nil_r, (insert_id (fs w)) by done. by destruct e.
  - cbn [for_iterator]. rewrite bind_eq. unfold modify at 1.
    rewrite bind_eq.
    destruct x as [b| | | | | |b];
      try (unfold drained; simpl; unfold set_iter;
           by rewrite !app_nil_r, (insert_id (fs w)) by done).
    all: simpl f_write; unfold modify; simpl fs; rewrite Hacc; simpl default;
      rewrite (IH _ (acc ++ b)) by (simpl; apply lookup_insert_eq);
      unfold drained, emit, set_fs, set_iter; simpl;
      rewrite !insert_insert_eq; by rewrite <- !(assoc_L (++)).
Qed.

Lemma save_audio_not_iterator (self : GeneratorResponse) (path : string) (w : World) :
  isinstance_Iterator (audio_bytes self) = false →
  save_audio self path w = (Raise ValueError, w).
Proof. unfold save_audio. by intros ->. Qed.

Lemma save_audio_iterator (self : GeneratorResponse) (path : string) (w : World)
    (l : nat) (st : IterState) :
  audio_bytes self = OIterator l →
  iters w !! l = Some st →
  save_audio self path w =
    ((drained (pending st) (ending st)).1,
     mkWorld (<[path := concat (bytes_prefix (pending st))]> (fs w))
             (<[l := (drained (pending st) (ending st)).2]> (iters w))
             (log w ++ EvOpen path :: (EvWrite path <$> bytes_prefix (pending st))
                    ++ [EvClose path])).
Proof.
  intros Ha Hl. unfold save_audio. rewrite Ha. simpl.
  unfold with_open_wb, finally, py_for. simpl iters. rewrite Hl.
  rewrite (for_iterator_write _ _ _ _ _ []) by (simpl; apply lookup_insert_eq).
  unfold py_close, py_open_wb, emit, set_fs; simpl.
  rewrite insert_insert_eq. by rewrite <- !(assoc_L (++)).
Qed.

Lemma save_audio_unknown_iterator (self : GeneratorResponse) (path : string)
    (w : World) (l : nat) :
  audio_bytes self = OIterator l →
  iters w !! l = None →
  save_audio self path w =
    (Ok tt, mkWorld (<[path := []]> (fs w)) (iters w)
                    (log w ++ [EvOpen path; EvClose path])).
Proof.
  intros Ha Hl. unfold save_audio. rewrite Ha. simpl.
  unfold with_open_wb, finally, py_for. simpl iters. rewrite Hl.
  unfold py_close, py_open_wb, emit, set_fs; simpl.
  by rewrite <- !(assoc_L (++)).
Qed.

Lemma bytes_prefix_all (chunks : list (list byte)) :
  bytes_prefix (OBytes <$> chunks) = chunks.
Proof.
  induction chunks as [|c cs IH]; [done|].
  rewrite fmap_cons. simpl. by rewrite IH.
Qed.

Lemma after_bad_item_all (chunks : list (list byte)) :
  after_bad_item (OBytes <$> chunks) = None.
Proof.
  induction chunks as [|c cs IH]; [done|].
  rewrite fmap_cons. simpl. by rewrite IH.
Qed.

Lemma log_grows_ne (w : World) (r : Result unit) (fs' : gmap string (list byte))
    (its : gmap nat IterState) (e : Event) (es : list Event) :
  (r, mkWorld fs' its (log w ++ e :: es)) ≠ (Raise ValueError, w).
Proof.
  intros H. injection H as _ H. apply (f_equal log) in H. simpl in H.
  apply (f_equal length) in H. rewrite length_app in H. simpl in H. lia.
Qed.

Lemma save_image_eq (self : GeneratorResponse) (path : string) (w : World) :
  save_image self path w =
    match image_bytes self with
    | OBytes [] | OStr _ | OList _ | OBuffer _ => (Raise ValueError, w)
    | OBytes b =>
        (Ok tt, mkWorld (<[path := b]> (fs w)) (iters w)
                        (log w ++ [EvOpen path; EvWrite path b; EvClose path]))
    | OIterator _ | ONone | OInt _ => (Raise TypeError, w)
    end.
Proof.
  unfold save_image. destruct (image_bytes self) as [[|x b]| | | | | |]; try done.
  cbn [isinstance_bytes py_len]. rewrite !bind_eq.
  unfold lift, mret, M_ret.
  rewrite bool_decide_eq_true_2 by (simpl; lia).
  unfold with_open_wb, finally, py_open_wb, py_close, emit, set_fs; simpl.
  rewrite lookup_insert_eq, insert_insert_eq. simpl.
  by rewrite <- !(assoc_L (++)).
Qed.

(** C3, as the code has it. [save_audio] raises its [ValueError] and
    leaves the world untouched exactly when [audio_bytes] is not an
    iterator object; a list is not one, so the default response, whose
    [audio_bytes] is an empty list, is always refused. When [audio_bytes]
    is an iterator that yields only bytes chunks and then ends, the call
    opens the destination once, writes every chunk in the order yielded,
    closes the file, and leaves the iterator exhausted: the stream is
    consumed in a single pass. *)
Theorem save_audio_checks_iterator (self : GeneratorResponse) (path : string)
    (w : World) :
  (save_audio self path w = (Raise ValueError, w)
     ↔ isinstance_Iterator (audio_bytes self) = false) ∧
  save_audio default_response path w = (Raise ValueError, w) ∧
  (∀ l chunks,
     audio_bytes self = OIterator l →
     iters w !! l = Some (mkIter (OBytes <$> chunks) None) →
     save_audio self path w =
       (Ok tt,
        mkWorld (<[path := concat chunks]> (fs w))
                (<[l := exhausted]> (iters w))
                (log w ++ EvOpen path :: (EvWrite path <$> chunks)
                       ++ [EvClose path]))).
Proof.
  split_and!.
  - split; [|apply save_audio_not_iterator].
    destruct (audio_bytes self) as [| | |l| | |] eqn:Ha; try done.
    intros H. exfalso. destruct (iters w !! l) as [st|] eqn:Hl.
    + rewrite (save_audio_iterator _ _ _ l st) in H by done.
      by apply log_grows_ne in H.
    + rewrite (save_audio_unknown_iterator _ _ _ l) in H by done.
      by apply log_grows_ne in H.
  - done.
  - intros l chunks Ha Hl.
    rewrite (save_audio_iterator _ _ _ l _ Ha Hl). simpl.
    unfold drained. by rewrite after_bad_item_all, bytes_prefix_all.
Qed.

Lemma save_audio_checks_iterator_witness :
  save_audio (with_audio_bytes (OIterator 0)) "card.mp3"
             (world_with_stream [OBytes chunk_ab; OBytes chunk_c] None) =
    (Ok tt,
     mkWorld {[ "card.mp3" := chunk_ab ++ chunk_c ]}
             {[ 0 := exhausted ]}
             [EvOpen "card.mp3"; EvWrite "card.mp3" chunk_ab;
              EvWrite "card.mp3" chunk_c; EvClose "card.mp3"]).
Proof.
  exact (proj2 (proj2 (save_audio_checks_iterator
                         (with_audio_bytes (OIterator 0)) "card.mp3"
                         (world_with_stream [OBytes chunk_ab; OBytes chunk_c] None)))
               0 [chunk_ab; chunk_c] eq_refl eq_refl).
Defined.

(** C3, as stated, fails. A list holding one bytes chunk is an iterable of
    bytes, yet [save_audio] refuses it with [ValueError]; and an iterator
    that yields a string is not an iterable of bytes, yet [save_audio]
    does not refuse it: it creates the file and fails inside the write
    with [TypeError]. *)
Lemma save_audio_not_exactly_iterables :
  (iterable_of_bytes empty_world (OList [OBytes chunk_ab]) = true ∧
   save_audio (with_audio_bytes (OList [OBytes chunk_ab])) "card.mp3" empty_world
     = (Raise ValueError, empty_world)) ∧
  (iterable_of_bytes (world_with_stream [OStr "ab"] None) (OIterator 0) = false ∧
   save_audio (with_audio_bytes (OIterator 0)) "card.mp3"
              (world_with_stream [OStr "ab"] None)
     = (Raise TypeError,
        mkWorld {[ "card.mp3" := [] ]} {[ 0 := exhausted ]}
                [EvOpen "card.mp3"; EvClose "card.mp3"])).
Proof. split_and!; reflexivity. Qed.

(** C6 at the failing input: an [image_bytes] that has no length, here
    [None], is not a binary blob, and [save_image] does not reach its
    [ValueError]: formatting the message calls [len] on the value and
    that call raises [TypeError]. *)
Theorem save_image_None_raises_TypeError :
  save_image (with_image_bytes ONone) "card.png" empty_world
    = (Raise TypeError, empty_world).
Proof. reflexivity. Qed.

(** What [save_image] does on the other inputs: a non-empty bytes object
    is written whole; an empty one, the default response included, and a
    string or a list are refused with [ValueError]. *)
Lemma save_image_on_blobs (path : string) (w : World) :
  (∀ x b, save_image (with_image_bytes (OBytes (x :: b))) path w =
            (Ok tt, mkWorld (<[path := x :: b]> (fs w)) (iters w)
                            (log w ++ [EvOpen path; EvWrite path (x :: b);
                                       EvClose path]))) ∧
  save_image default_response path w = (Raise ValueError, w) ∧
  (∀ s, save_image (with_image_bytes (OStr s)) path w = (Raise ValueError, w)) ∧
  (∀ items, save_image (with_image_bytes (OList items)) path w
              = (Raise ValueError, w)).
Proof. split_and!; intros; by rewrite save_image_eq. Qed.

(** C7, as the code has it. [save_image] either refuses before touching
    the world or opens the destination once, writes the whole blob in one
    write and closes the file. [save_audio] either refuses before touching
    the world, or opens the destination once (truncating it), writes the
    leading bytes chunks of the stream one by one and closes the file on
    every exit path; when the stream raises, or yields an item that is not
    bytes-like, the error comes out after the close and the destination
    keeps the chunks written up to that point. *)
Theorem save_scoped_write (self : GeneratorResponse) (path : string) (w : World) :
  (let '(r, w') := save_image self path w in
   match r with
   | Ok _ =>
       ∃ b, image_bytes self = OBytes b ∧ b ≠ [] ∧
            w' = mkWorld (<[path := b]> (fs w)) (iters w)
                         (log w ++ [EvOpen path; EvWrite path b; EvClose path])
   | Raise _ => w' = w
   end) ∧
  (let '(r, w') := save_audio self path w in
   (r = Raise ValueError ∧ w' = w ∧ isinstance_Iterator (audio_bytes self) = false)
   ∨
   (∃ l, audio_bytes self = OIterator l ∧
         let st := default exhausted (iters w !! l) in
         let written := bytes_prefix (pending st) in
         r = (drained (pending st) (ending st)).1 ∧
         fs w' = <[path := concat written]> (fs w) ∧
         log w' = log w ++ EvOpen path :: (EvWrite path <$> written)
                        ++ [EvClose path])).
Proof.
  split.
  - rewrite save_image_eq.
    destruct (image_bytes self) as [[|x b]| | | | | |]; try done.
    by exists (x :: b).
  - destruct (isinstance_Iterator (audio_bytes self)) eqn:Hi.
    + destruct (audio_bytes self) as [| | |l| | |] eqn:Ha; try done.
      destruct (iters w !! l) as [st|] eqn:Hl.
      * rewrite (save_audio_iterator _ _ _ l st) by done.
        right. exists l. by rewrite Hl.
      * rewrite (save_audio_unknown_iterator _ _ _ l) by done.
        right. exists l. by rewrite Hl.
    + rewrite save_audio_not_iterator by done. by left.
Qed.

(** C7, as stated, fails: when the stream raises after its first chunk,
    [save_audio] fails, and the destination, which did not exist before,
    now holds that first chunk. *)
Lemma save_audio_leaves_partial_file :
  let w := world_with_stream [OBytes chunk_ab] (Some (RemoteError "reset")) in
  let '(r, w') := save_audio (with_audio_bytes (OIterator 0)) "card.mp3" w in
  r = Raise (RemoteError "reset") ∧
  fs w !! "card.mp3" = None ∧
  fs w' !! "card.mp3" = Some chunk_ab.
Proof. vm_compute. split_and!; reflexivity. Qed.

(** ** Strings and [str.replace] *)

Lemma string_app_cons (c : Ascii.ascii) (a b : string) :
  String c a +:+ b = String c (a +:+ b).
Proof. reflexivity. Qed.

Lemma string_app_nil_l (b : string) : "" +:+ b = b.
Proof. reflexivity. Qed.

Lemma starts_with_app (w r : string) : starts_with w (w +:+ r) = true.
Proof.
  induction w as [|x w IH]; [done|].
  rewrite string_app_cons. simpl. by rewrite decide_True.
Qed.

Lemma starts_with_inv (w s : string) :
  starts_with w s = true → ∃ r, s = w +:+ r.
Proof.
  revert s. induction w as [|x w IH]; intros s H; [by exists s|].
  destruct s as [|y s]; [done|]. simpl in H. case_decide; [subst|done].
  destruct (IH _ H) as [r ->]. by exists r.
Qed.

Lemma py_contains_occurs (w s : string) :
  py_contains w s = true ↔ occurs w s.
Proof.
  split.
  - induction s as [|c s IH]; simpl; intros H.
    + rewrite orb_false_r in H. apply starts_with_inv in H as [r ->].
      by exists "", r.
    + apply orb_true_iff in H as [H|H].
      * apply starts_with_inv in H as [r ->]. by exists "", r.
      * destruct (IH H) as (b & a & ->). by exists (String c b), a.
  - intros (b & a & ->). induction b as [|c b IH].
    + rewrite string_app_nil_l.
      destruct (w +:+ a) eqn:E; simpl; rewrite <- E, starts_with_app; done.
    + rewrite string_app_cons. simpl. by rewrite IH, orb_true_r.
Qed.

Lemma replace_scan_skip (old new x r : string) :
  replace_scan (String.length x) old new (x +:+ r) = replace_scan 0 old new r.
Proof.
  induction x as [|c x IH]; [done|]. rewrite string_app_cons. by simpl.
Qed.

Lemma replace_scan_match (old new r : string) :
  old ≠ "" →
  replace_scan 0 old new (old +:+ r) = new +:+ replace_scan 0 old new r.
Proof.
  intros Hne. destruct old as [|c o]; [done|].
  change (String c o +:+ r) with (String c (o +:+ r)).
  cbn [replace_scan].
  change (String c (o +:+ r)) with (String c o +:+ r).
  rewrite starts_with_app.
  replace (String.length (String c o) - 1) with (String.length o) by (simpl; lia).
  by rewrite replace_scan_skip.
Qed.

Lemma replace_scan_before (old new before rest : string) :
  no_match_inside old before rest = true →
  replace_scan 0 old new (before +:+ rest) = before +:+ replace_scan 0 old new rest.
Proof.
  induction before as [|c b IH]; [done|].
  cbn [no_match_inside]. intros [H1 H2]%andb_true_iff.
  apply negb_true_iff in H1.
  change (String c b +:+ rest) with (String c (b +:+ rest)) in *.
  cbn [replace_scan]. rewrite H1. simpl. by rewrite IH.
Qed.

Lemma replace_scan_absent (old new s : string) :
  py_contains old s = false → replace_scan 0 old new s = s.
Proof.
  induction s as [|c s IH]; [done|].
  cbn [py_contains]. intros [H1 H2]%orb_false_iff.
  cbn [replace_scan]. rewrite H1. by rewrite IH.
Qed.

Lemma intersperse_all_empty (s : string) : intersperse_all "" s = s.
Proof.
  induction s as [|c s IH]; [done|]. simpl. rewrite string_app_nil_l. by f_equal.
Qed.

Lemma py_replace_absent (s old new : string) :
  py_contains old s = false → py_replace s old new = s.
Proof.
  destruct old as [|c o]; [by destruct s|]. apply replace_scan_absent.
Qed.

Lemma py_replace_leftmost (old new before after : string) :
  old ≠ "" →
  leftmost_at old before after = true →
  py_replace (before +:+ old +:+ after) old new
    = before +:+ new +:+ py_replace after old new.
Proof.
  intros Hne H. unfold py_replace. destruct old as [|c o] eqn:E; [done|].
  rewrite <- E in *. assert (old ≠ "") by (by subst).
  by rewrite replace_scan_before, replace_scan_match.
Qed.

(** ** Text generation *)

Lemma cohere_generate_text_eq (env : Providers) (wwc : WordWithContext)
    (api_key : string) (w : World) :
  cohere_generate_text env wwc api_key w =
    match get_system_prompt_by_language env with
    | Raise e => (Raise e, w)
    | Ok system_prompt =>
        let req := cohere_request api_key system_prompt wwc in
        (match cohere_chat env req with
         | Ok raw => Ok (py_replace raw (word wwc) "")
         | Raise e => Raise e
         end, emit (EvRemote req) w)
    end.
Proof.
  unfold cohere_generate_text. rewrite bind_eq. unfold lift.
  destruct (get_system_prompt_by_language env) as [sp|e]; [|done].
  rewrite bind_eq. unfold remote, cohere_request. simpl.
  by destruct (cohere_chat env _).
Qed.

(** The other text generator hands the provider's text over as it is. *)
Lemma GPTextGenerator_generate_eq (env : Providers) (self : Generator)
    (m : AvailableModels) (wwc : WordWithContext) (w : World) :
  model (config self) = Member m →
  GPTextGenerator_generate env self (InWord wwc) w =
    match get_system_prompt_by_language env with
    | Raise e => (Raise e, w)
    | Ok system_prompt =>
        let req := ReqOpenAIChat (OPENAI_API_KEY env) (value m)
                     [("system", system_prompt); ("user", user_message wwc)] 512 in
        (match openai_chat env req with
         | Ok raw => Ok (with_text raw)
         | Raise e => Raise e
         end, emit (EvRemote req) w)
    end.
Proof.
  intros Hm. unfold GPTextGenerator_generate. rewrite Hm. simpl.
  rewrite bind_eq. unfold lift. rewrite bind_eq.
  unfold chat_generate_text. rewrite bind_eq. unfold lift.
  destruct (get_system_prompt_by_language env) as [sp|e]; [|done].
  unfold remote. simpl. by destruct (openai_chat env _).
Qed.

(** C10, as the code has it. The card text of the Cohere generator is the
    provider's text passed once through [str.replace(word, "")]: scanning
    from the left, each match of the word is deleted and the scan resumes
    after it. So a text in which the word does not occur is returned
    unchanged, an empty word changes nothing, and otherwise the text up to
    the leftmost match is kept, the match is dropped and the rest is
    treated the same way. Nothing is said about the result being free of
    the word: deleting a match can join its neighbours into a new one. *)
Theorem cohere_text_deletes_matches (env : Providers) (self : Generator)
    (wwc : WordWithContext) (w : World) :
  CohereTextGenerator_generate env self (InWord wwc) w =
    match get_system_prompt_by_language env with
    | Raise e => (Raise e, w)
    | Ok system_prompt =>
        let req := cohere_request (API_KEY (config self)) system_prompt wwc in
        (match cohere_chat env req with
         | Ok raw => Ok (with_text (py_replace raw (word wwc) ""))
         | Raise e => Raise e
         end, emit (EvRemote req) w)
    end ∧
  (∀ raw, py_contains (word wwc) raw = false →
          py_replace raw (word wwc) "" = raw) ∧
  (∀ raw, word wwc = "" → py_replace raw (word wwc) "" = raw) ∧
  (∀ before after,
     word wwc ≠ "" →
     leftmost_at (word wwc) before after = true →
     py_replace (before +:+ word wwc +:+ after) (word wwc) ""
       = before +:+ py_replace after (word wwc) "").
Proof.
  split_and!.
  - unfold CohereTextGenerator_generate. rewrite bind_eq, cohere_generate_text_eq.
    destruct (get_system_prompt_by_language env) as [sp|e]; [|done].
    simpl. by destruct (cohere_chat env _).
  - intros raw. apply py_replace_absent.
  - intros raw ->. apply intersperse_all_empty.
  - intros before after Hne H. by rewrite py_replace_leftmost.
Qed.

Lemma cohere_text_deletes_matches_witness :
  py_replace ("das " +:+ "haus" +:+ " ist ein haus") "haus" ""
    = "das " +:+ py_replace " ist ein haus" "haus" "".
Proof.
  exact (proj2 (proj2 (proj2 (cohere_text_deletes_matches
           (constant_providers "das haus ist ein haus")
           (mkGenerator CohereTextGenerator
              (mkGeneratorConfig (Member COHERE) "key" "" "german"))
           (mkWordWithContext "haus" (Some "das haus")) empty_world)))
         "das " " ist ein haus" ltac:(discriminate) eq_refl).
Defined.

(** C10, as stated, fails: for the word "ab" and the provider text
    "aabb" the card text is "ab", in which the word occurs. *)
Lemma cohere_text_can_contain_word :
  CohereTextGenerator_generate (constant_providers "aabb")
      (mkGenerator CohereTextGenerator
         (mkGeneratorConfig (Member COHERE) "key" "" "english"))
      (InWord (mkWordWithContext "ab" None)) empty_world
    = (Ok (with_text "ab"),
       emit (EvRemote (cohere_request "key" "PROMPT" (mkWordWithContext "ab" None)))
            empty_world) ∧
  py_contains "ab" (text (with_text "ab")) = true ∧
  occurs "ab" (text (with_text "ab")).
Proof. split_and!; [reflexivity..|]. by exists "", "". Qed.

(** ** The pipeline *)

Lemma exclude_imported_words_filter (input : list WordWithContext)
    (imported : list string) :
  exclude_imported_words input imported
    = filter (λ w, word w ∉ imported) input.
Proof.
  unfold exclude_imported_words. case_bool_decide as H; [done|].
  destruct imported as [|x imported]; [|simpl in H; lia].
  induction input as [|w input IH]; [done|].
  rewrite filter_cons_True by set_solver. by f_equal.
Qed.

Lemma exclude_imported_words_nil (input : list WordWithContext) :
  exclude_imported_words input [] = input.
Proof. reflexivity. Qed.

Lemma elem_of_exclude_imported_words (input : list WordWithContext)
    (imported : list string) (w : WordWithContext) :
  w ∈ exclude_imported_words input imported ↔ w ∈ input ∧ word w ∉ imported.
Proof.
  rewrite exclude_imported_words_filter, list_elem_of_filter. tauto.
Qed.

Lemma on_ext_calls {Ext A} (m : M Ext A) (s : PState Ext) :
  generation_calls (on_ext m s).2 = generation_calls s.
Proof. unfold on_ext. by destruct (m (ext s)). Qed.


Lemma on_world_create {Ext} (cfg : GeneratorConfig) (s : PState Ext) :
  on_world (create cfg) s = ((create cfg (world s)).1, s).
Proof. unfold on_world. rewrite create_eq. by destruct s. Qed.

Lemma py_map_create {Ext} (cfgs : list GeneratorConfig) (s : PState Ext) :
  (py_map (λ cfg, on_world (create cfg)) cfgs s).2 = s.
Proof.
  induction cfgs as [|cfg cfgs IH]; [done|].
  cbn [py_map]. rewrite bind_eq, on_world_create.
  destruct (create cfg (world s)).1; [|done].
  rewrite bind_eq.
  destruct (py_map _ cfgs s) as [[gens|e] s'] eqn:E; simpl in IH; by subst.
Qed.

(** Taking one step of a bind whose first action runs on the
    collaborators' state. *)
Ltac step_on_ext :=
  rewrite bind_eq;
  match goal with
  | |- context [on_ext ?m ?s] =>
      let H := fresh "Hcalls" in
      pose proof (on_ext_calls m s) as H;
      destruct (on_ext m s) as [[?|?] ?]; simpl in H
  end.

Lemma process_existing_cards_calls {Ext} (col : Collaborators Ext)
    (input : list WordWithContext) (s : PState Ext) :
  generation_calls (process_existing_cards col input s).2 = generation_calls s.
Proof.
  unfold process_existing_cards.
  step_on_ext; [|done]. step_on_ext; [|simpl; congruence].
  step_on_ext; [|simpl; congruence]. step_on_ext; simpl; congruence.
Qed.



(** * Further properties of the code *)

(** ** Generators *)

Lemma generate_audio_eq (env : Providers) (text key lang : string) (w : World) :
  ElevenlabsAudio.generate_audio env text key lang w =
    match ElevenlabsAudio.VOICE_IDS !! lang with
    | None => (Raise (KeyError lang), w)
    | Some voice =>
        let req := ReqHttpPost (ElevenlabsAudio.URL_prefix +:+ voice)
                     (<["xi-api-key" := key]> ElevenlabsAudio.HEADERS)
                     text ElevenlabsAudio.MODEL1 in
        match requests_post env req with
        | Raise e => (Raise e, emit (EvRemote req) w)
        | Ok stream =>
            (Ok (OIterator (fresh (dom (iters w)))),
             set_iter (fresh (dom (iters w))) stream (emit (EvRemote req) w))
        end
    end.
Proof.
  unfold ElevenlabsAudio.generate_audio. rewrite bind_eq. unfold lift, py_getitem.
  destruct (ElevenlabsAudio.VOICE_IDS !! lang) as [voice|]; [|done].
  rewrite bind_eq. unfold ElevenlabsAudio.post, remote, ElevenlabsAudio.request,
    ElevenlabsAudio.url, ElevenlabsAudio.headers. simpl.
  by destruct (requests_post env _).
Qed.

Lemma ElevenlabsTTSGenerator_generate_eq (env : Providers) (self : Generator)
    (text : string) (w : World) :
  ElevenlabsTTSGenerator_generate env self (InStr text) w =
    match ElevenlabsAudio.VOICE_IDS !! language (config self) with
    | None => (Raise (KeyError (language (config self))), w)
    | Some voice =>
        let req := tts_request self voice text in
        match requests_post env req with
        | Raise e => (Raise e, emit (EvRemote req) w)
        | Ok stream =>
            (Ok (with_audio_bytes (OIterator (fresh (dom (iters w))))),
             set_iter (fresh (dom (iters w))) stream (emit (EvRemote req) w))
        end
    end.
Proof.
  unfold ElevenlabsTTSGenerator_generate. rewrite bind_eq, generate_audio_eq.
  unfold tts_request.
  destruct (ElevenlabsAudio.VOICE_IDS !! language (config self)) as [voice|];
    [|done].
  simpl. by destruct (requests_post env _).
Qed.

Lemma KandinskyImageGenerator_generate_eq (env : Providers) (self : Generator)
    (prompt : string) (w : World) :
  KandinskyImageGenerator_generate env self (InStr prompt) w =
    (match kandinsky_generate_image env (image_request self prompt) with
     | Ok o => Ok (with_image_bytes o)
     | Raise e => Raise e
     end, emit (EvRemote (image_request self prompt)) w).
Proof.
  unfold KandinskyImageGenerator_generate, image_request, remote.
  rewrite bind_eq. by destruct (kandinsky_generate_image env _).
Qed.

Lemma GPTextGenerator_generate_foreign (env : Providers) (self : Generator)
    (s : string) (wwc : WordWithContext) (w : World) :
  model (config self) = Foreign s →
  GPTextGenerator_generate env self (InWord wwc) w = (Raise AttributeError, w).
Proof. intros H. unfold GPTextGenerator_generate. by rewrite H. Qed.

Lemma CohereTextGenerator_generate_eq (env : Providers) (self : Generator)
    (wwc : WordWithContext) (w : World) :
  CohereTextGenerator_generate env self (InWord wwc) w =
    match get_system_prompt_by_language env with
    | Raise e => (Raise e, w)
    | Ok system_prompt =>
        let req := cohere_request (API_KEY (config self)) system_prompt wwc in
        (match cohere_chat env req with
         | Ok raw => Ok (with_text (py_replace raw (word wwc) ""))
         | Raise e => Raise e
         end, emit (EvRemote req) w)
    end.
Proof.
  unfold CohereTextGenerator_generate. rewrite bind_eq, cohere_generate_text_eq.
  destruct (get_system_prompt_by_language env) as [sp|e]; [|done].
  simpl. by destruct (cohere_chat env _).
Qed.

Ltac world_facts :=
  split_and!;
  [ done
  | first [by left | right; eexists; reflexivity]
  | first [by left | right; eexists; reflexivity] ].

(** What one call of [generate] can do to the world. *)
Lemma generate_world (env : Providers) (self : Generator) (input_ : GenInput)
    (w : World) :
  let w' := (generate env self input_ w).2 in
  fs w' = fs w ∧
  (log w' = log w ∨ ∃ req, log w' = log w ++ [EvRemote req]) ∧
  (iters w' = iters w ∨
   ∃ st, iters w' = <[fresh (dom (iters w)) := st]> (iters w)).
Proof.
  unfold generate. destruct (cls self), input_ as [wwc|s];
    try (simpl; by eauto).
  - destruct (model (config self)) as [m|f] eqn:Hm.
    + rewrite (GPTextGenerator_generate_eq _ _ m) by done.
      destruct (get_system_prompt_by_language env); simpl; world_facts.
    + rewrite (GPTextGenerator_generate_foreign _ _ f) by done. simpl.
      world_facts.
  - rewrite CohereTextGenerator_generate_eq.
    destruct (get_system_prompt_by_language env); simpl; world_facts.
  - rewrite KandinskyImageGenerator_generate_eq. simpl. world_facts.
  - rewrite ElevenlabsTTSGenerator_generate_eq.
    destruct (ElevenlabsAudio.VOICE_IDS !! _); [|simpl; world_facts].
    simpl. destruct (requests_post env _); simpl; world_facts.
Qed.

(** X1. A generator given the wrong kind of input (a bare string for a
    text generator, a word with context for the image or the speech
    generator) raises [ValueError] at once: nothing is requested from a
    provider and the world is untouched, whatever the language or
    credentials are. *)
Theorem generate_rejects_wrong_input (env : Providers) (self : Generator)
    (input_ : GenInput) (w : World) :
  accepts_input (cls self) input_ = false →
  generate env self input_ w = (Raise ValueError, w).
Proof.
  unfold generate. by destruct (cls self), input_.
Qed.

Lemma generate_rejects_wrong_input_witness :
  generate (constant_providers "text") example_tts
           (InWord (mkWordWithContext "haus" None)) empty_world
    = (Raise ValueError, empty_world).
Proof.
  apply (generate_rejects_wrong_input (constant_providers "text") example_tts
           (InWord (mkWordWithContext "haus" None)) empty_world).
  reflexivity.
Defined.

(** X2. One call of [generate], on any generator, input and provider
    behaviour, never changes a file and sends at most one remote request:
    the log is left as it was or grows by exactly one request. *)
Theorem generate_effects_bounded (env : Providers) (self : Generator)
    (input_ : GenInput) (w : World) :
  fs (generate env self input_ w).2 = fs w ∧
  (log (generate env self input_ w).2 = log w ∨
   ∃ req, log (generate env self input_ w).2 = log w ++ [EvRemote req]).
Proof.
  destruct (generate_world env self input_ w) as (H1 & H2 & _). by split.
Qed.

(** X3. Generating never disturbs an iterator that already exists: the
    speech generator stores its stream under a fresh reference, so the
    audio of an earlier response is still there to be saved. *)
Theorem generate_preserves_iterators (env : Providers) (self : Generator)
    (input_ : GenInput) (w : World) (l : nat) (st : IterState) :
  iters w !! l = Some st →
  iters (generate env self input_ w).2 !! l = Some st.
Proof.
  intros Hl. destruct (generate_world env self input_ w) as (_ & _ & [H|[st' H]]);
    rewrite H; [done|].
  rewrite lookup_insert_ne; [done|].
  intros <-. apply (is_fresh (dom (iters w))). by apply elem_of_dom.
Qed.

Lemma generate_preserves_iterators_witness :
  iters (generate (media_providers [chunk_c] ONone) example_tts (InStr "haus")
           (world_with_stream [OBytes chunk_ab] None)).2 !! 0
    = Some (mkIter [OBytes chunk_ab] None).
Proof.
  apply (generate_preserves_iterators (media_providers [chunk_c] ONone)
           example_tts (InStr "haus")
           (world_with_stream [OBytes chunk_ab] None) 0).
  reflexivity.
Defined.

(** X4. The GPT generator names its model to the chat service by the
    model's wire string and returns the service's text as it is; a
    failure to obtain the system prompt is raised before any request is
    sent. With a model value that is not a member of the enumeration the
    call fails with [AttributeError] and sends nothing. *)
Theorem gpt_generate_uses_wire_string (env : Providers) (self : Generator)
    (wwc : WordWithContext) (w : World) :
  match model (config self) with
  | Member m =>
      GPTextGenerator_generate env self (InWord wwc) w =
        match get_system_prompt_by_language env with
        | Raise e => (Raise e, w)
        | Ok system_prompt =>
            let req := ReqOpenAIChat (OPENAI_API_KEY env) (value m)
                         [("system", system_prompt); ("user", user_message wwc)]
                         512 in
            (match openai_chat env req with
             | Ok raw => Ok (with_text raw)
             | Raise e => Raise e
             end, emit (EvRemote req) w)
        end
  | Foreign _ =>
      GPTextGenerator_generate env self (InWord wwc) w = (Raise AttributeError, w)
  end.
Proof.
  destruct (model (config self)) as [m|s] eqn:Hm.
  - by apply GPTextGenerator_generate_eq.
  - by apply (GPTextGenerator_generate_foreign _ _ s).
Qed.

(** ** From generation to saved artifacts *)

Lemma drained_all_bytes (chunks : list (list byte)) :
  drained (OBytes <$> chunks) None = (Ok tt, exhausted).
Proof. unfold drained. by rewrite after_bad_item_all. Qed.

(** X5. A response produced by a text generator carries text only: its
    image and audio fields keep their defaults, so saving it as an image
    or as audio is refused with [ValueError] and writes nothing. *)
Theorem text_responses_cannot_be_saved (env : Providers) (self : Generator)
    (wwc : WordWithContext) (w w' w2 : World) (r : GeneratorResponse)
    (path : string) :
  cls self = GPTextGenerator ∨ cls self = CohereTextGenerator →
  generate env self (InWord wwc) w = (Ok r, w') →
  r = with_text (text r) ∧
  save_image r path w2 = (Raise ValueError, w2) ∧
  save_audio r path w2 = (Raise ValueError, w2).
Proof.
  intros Hcls Hgen.
  assert (∃ t, r = with_text t) as [t ->]; [|done].
  unfold generate in Hgen. destruct Hcls as [Hc|Hc]; rewrite Hc in Hgen.
  - destruct (model (config self)) as [m|f] eqn:Hm.
    + rewrite (GPTextGenerator_generate_eq _ _ m) in Hgen by done.
      destruct (get_system_prompt_by_language env); [|done]. simpl in Hgen.
      destruct (openai_chat env _) as [raw|]; [|done].
      injection Hgen as <- _. by exists raw.
    + by rewrite (GPTextGenerator_generate_foreign _ _ f) in Hgen.
  - rewrite CohereTextGenerator_generate_eq in Hgen.
    destruct (get_system_prompt_by_language env); [|done]. simpl in Hgen.
    destruct (cohere_chat env _) as [raw|]; [|done].
    injection Hgen as <- _. by eexists.
Qed.

Lemma text_responses_cannot_be_saved_witness :
  with_text "das " = with_text (text (with_text "das ")) ∧
  save_image (with_text "das ") "card.png" empty_world
    = (Raise ValueError, empty_world) ∧
  save_audio (with_text "das ") "card.png" empty_world
    = (Raise ValueError, empty_world).
Proof.
  apply (text_responses_cannot_be_saved (constant_providers "das haus")
           example_cohere (mkWordWithContext "haus" None) empty_world
           (emit (EvRemote (cohere_request "text-key" "PROMPT"
                              (mkWordWithContext "haus" None))) empty_world)).
  - by right.
  - reflexivity.
Defined.

(** X6. Speech end to end: for a language with a voice and a service
    that streams bytes chunks, generating and then saving the response
    sends one request and leaves at the destination exactly the chunks of
    the stream, concatenated in the order they were streamed. *)
Theorem speech_is_saved_in_order (env : Providers) (self : Generator)
    (text path voice : string) (chunks : list (list byte)) (w : World) :
  ElevenlabsAudio.VOICE_IDS !! language (config self) = Some voice →
  requests_post env (tts_request self voice text)
    = Ok (mkIter (OBytes <$> chunks) None) →
  ∃ r w1 w2,
    ElevenlabsTTSGenerator_generate env self (InStr text) w = (Ok r, w1) ∧
    save_audio r path w1 = (Ok tt, w2) ∧
    fs w2 = <[path := concat chunks]> (fs w) ∧
    log w2 = log w ++ EvRemote (tts_request self voice text) :: EvOpen path
                   :: (EvWrite path <$> chunks) ++ [EvClose path].
Proof.
  intros Hv Hpost. rewrite ElevenlabsTTSGenerator_generate_eq, Hv. simpl.
  rewrite Hpost. eexists _, _, _. split; [done|].
  erewrite save_audio_iterator;
    [|done|simpl; apply lookup_insert_eq].
  simpl. rewrite drained_all_bytes, bytes_prefix_all. simpl.
  split_and!; [done..|]. by rewrite <- (assoc_L (++)).
Qed.

Lemma speech_is_saved_in_order_witness :
  ∃ r w1 w2,
    ElevenlabsTTSGenerator_generate (media_providers [chunk_ab; chunk_c] ONone)
      example_tts (InStr "haus") empty_world = (Ok r, w1) ∧
    save_audio r "haus.mp3" w1 = (Ok tt, w2) ∧
    fs w2 = <["haus.mp3" := concat [chunk_ab; chunk_c]]> (fs empty_world) ∧
    log w2 = log empty_world
               ++ EvRemote (tts_request example_tts
                              ElevenlabsAudio.GERMAN_VOICE_ID "haus")
               :: EvOpen "haus.mp3"
               :: (EvWrite "haus.mp3" <$> [chunk_ab; chunk_c])
               ++ [EvClose "haus.mp3"].
Proof.
  apply (speech_is_saved_in_order (media_providers [chunk_ab; chunk_c] ONone)
           example_tts "haus" "haus.mp3" ElevenlabsAudio.GERMAN_VOICE_ID
           [chunk_ab; chunk_c] empty_world); reflexivity.
Defined.

(** X7. Images end to end: the image generator sends one request and puts
    the service's answer into [image_bytes] unchanged; saving the response
    then writes a non-empty bytes answer whole to the destination, and
    refuses an empty one with [ValueError], leaving no file. *)
Theorem image_is_saved_whole (env : Providers) (self : Generator)
    (prompt path : string) (w : World) :
  let req := image_request self prompt in
  match kandinsky_generate_image env req with
  | Raise e =>
      KandinskyImageGenerator_generate env self (InStr prompt) w
        = (Raise e, emit (EvRemote req) w)
  | Ok o =>
      KandinskyImageGenerator_generate env self (InStr prompt) w
        = (Ok (with_image_bytes o), emit (EvRemote req) w) ∧
      match o with
      | OBytes (x :: b) =>
          save_image (with_image_bytes o) path (emit (EvRemote req) w) =
            (Ok tt, mkWorld (<[path := x :: b]> (fs w)) (iters w)
                            (log w ++ [EvRemote req; EvOpen path;
                                       EvWrite path (x :: b); EvClose path]))
      | OBytes [] =>
          save_image (with_image_bytes o) path (emit (EvRemote req) w)
            = (Raise ValueError, emit (EvRemote req) w)
      | _ => True
      end
  end.
Proof.
  intros req. rewrite KandinskyImageGenerator_generate_eq. fold req.
  destruct (kandinsky_generate_image env req) as [o|e]; [|done].
  split; [done|]. rewrite save_image_eq.
  destruct o as [[|x b]| | | | | |]; try done.
  simpl. by rewrite <- (assoc_L (++)).
Qed.

(** ** Saving artifacts: what else holds *)

Lemma save_audio_world (self : GeneratorResponse) (path : string) (w : World) :
  (save_audio self path w).2 = w ∨
  ∃ written its,
    (save_audio self path w).2 =
      mkWorld (<[path := concat written]> (fs w)) its
              (log w ++ EvOpen path :: (EvWrite path <$> written)
                     ++ [EvClose path]).
Proof.
  destruct (audio_bytes self) as [| | |l| | |] eqn:Ha;
    try (left; by rewrite save_audio_not_iterator by (by rewrite Ha)).
  right. destruct (iters w !! l) as [st|] eqn:Hl.
  - rewrite (save_audio_iterator _ _ _ l st) by done. by eexists _, _.
  - rewrite (save_audio_unknown_iterator _ _ _ l) by done. by exists [], (iters w).
Qed.

Lemma save_image_world (self : GeneratorResponse) (path : string) (w : World) :
  (save_image self path w).2 = w ∨
  ∃ b,
    (save_image self path w).2 =
      mkWorld (<[path := b]> (fs w)) (iters w)
              (log w ++ [EvOpen path; EvWrite path b; EvClose path]).
Proof.
  rewrite save_image_eq.
  destruct (image_bytes self) as [[|x b]| | | | | |]; try by left.
  right. by eexists.
Qed.

(** X8. Saving is confined to its destination: whatever the response
    holds and however the call ends, [save_image] and [save_audio] leave
    every file other than the destination exactly as it was. *)
Theorem save_leaves_other_files (self : GeneratorResponse) (path other : string)
    (w : World) :
  other ≠ path →
  fs (save_image self path w).2 !! other = fs w !! other ∧
  fs (save_audio self path w).2 !! other = fs w !! other.
Proof.
  intros Hne. split.
  - destruct (save_image_world self path w) as [->|[b ->]]; [done|].
    simpl. by rewrite lookup_insert_ne.
  - destruct (save_audio_world self path w) as [->|(written & its & ->)]; [done|].
    simpl. by rewrite lookup_insert_ne.
Qed.

Lemma save_leaves_other_files_witness :
  fs (save_image (with_image_bytes (OBytes chunk_ab)) "card.png"
        (mkWorld {[ "old.mp3" := chunk_c ]} ∅ [])).2 !! "old.mp3"
    = fs (mkWorld {[ "old.mp3" := chunk_c ]} ∅ []) !! "old.mp3" ∧
  fs (save_audio (with_image_bytes (OBytes chunk_ab)) "card.png"
        (mkWorld {[ "old.mp3" := chunk_c ]} ∅ [])).2 !! "old.mp3"
    = fs (mkWorld {[ "old.mp3" := chunk_c ]} ∅ []) !! "old.mp3".
Proof.
  apply (save_leaves_other_files (with_image_bytes (OBytes chunk_ab))
           "card.png" "old.mp3" (mkWorld {[ "old.mp3" := chunk_c ]} ∅ [])).
  discriminate.
Defined.

Lemma opened_writes (path : string) (written : list (list byte)) :
  opened (EvWrite path <$> written) = [] ∧ closed (EvWrite path <$> written) = [].
Proof.
  induction written as [|b written [IH1 IH2]]; [done|].
  split; [exact IH1 | exact IH2].
Qed.

Lemma opened_scope (events : list Event) (path : string)
    (written : list (list byte)) :
  opened (events ++ EvOpen path :: (EvWrite path <$> written) ++ [EvClose path])
    = opened events ++ [path] ∧
  closed (events ++ EvOpen path :: (EvWrite path <$> written) ++ [EvClose path])
    = closed events ++ [path].
Proof.
  destruct (opened_writes path written) as [H1 H2].
  unfold opened, closed in *. rewrite !omap_app. simpl. rewrite !omap_app.
  by rewrite H1, H2.
Qed.

(** X9. Every file a save opens it also closes, on every exit path: after
    [save_image] or [save_audio], whether it returned or raised, the log
    shows either no open and no close, or exactly one open and one close,
    both of the destination. *)
Theorem save_closes_what_it_opens (self : GeneratorResponse) (path : string)
    (w : World) :
  (∃ scope, (scope = [] ∨ scope = [path]) ∧
     opened (log (save_image self path w).2) = opened (log w) ++ scope ∧
     closed (log (save_image self path w).2) = closed (log w) ++ scope) ∧
  (∃ scope, (scope = [] ∨ scope = [path]) ∧
     opened (log (save_audio self path w).2) = opened (log w) ++ scope ∧
     closed (log (save_audio self path w).2) = closed (log w) ++ scope).
Proof.
  split.
  - destruct (save_image_world self path w) as [->|[b ->]].
    + exists []. rewrite !app_nil_r. eauto.
    + exists [path]. split; [by right|]. simpl.
      apply (opened_scope (log w) path [b]).
  - destruct (save_audio_world self path w) as [->|(written & its & ->)].
    + exists []. rewrite !app_nil_r. eauto.
    + exists [path]. split; [by right|]. simpl. apply opened_scope.
Qed.

(** X10. Saving audio uses the stream up: after a save that wrote all the
    chunks, a second save of the same response still succeeds, but finds
    the iterator exhausted and leaves an empty file at its destination
    (at the first destination too, if it is the same path). *)
Theorem save_audio_twice_writes_nothing (self : GeneratorResponse)
    (path path2 : string) (w : World) (l : nat) (chunks : list (list byte)) :
  audio_bytes self = OIterator l →
  iters w !! l = Some (mkIter (OBytes <$> chunks) None) →
  let w1 := (save_audio self path w).2 in
  fs w1 !! path = Some (concat chunks) ∧
  (save_audio self path2 w1).1 = Ok tt ∧
  fs (save_audio self path2 w1).2 !! path2 = Some [].
Proof.
  intros Ha Hl w1. subst w1.
  rewrite (save_audio_iterator _ _ _ l _ Ha Hl). simpl.
  rewrite drained_all_bytes, bytes_prefix_all. simpl.
  split; [apply lookup_insert_eq|].
  erewrite save_audio_iterator; [|done|simpl; apply lookup_insert_eq].
  simpl. split; [done|]. apply lookup_insert_eq.
Qed.

Lemma save_audio_twice_writes_nothing_witness :
  let w1 := (save_audio (with_audio_bytes (OIterator 0)) "card.mp3"
               (world_with_stream [OBytes chunk_ab; OBytes chunk_c] None)).2 in
  fs w1 !! "card.mp3" = Some (concat [chunk_ab; chunk_c]) ∧
  (save_audio (with_audio_bytes (OIterator 0)) "card.mp3" w1).1 = Ok tt ∧
  fs (save_audio (with_audio_bytes (OIterator 0)) "card.mp3" w1).2 !! "card.mp3"
    = Some [].
Proof.
  apply (save_audio_twice_writes_nothing (with_audio_bytes (OIterator 0))
           "card.mp3" "card.mp3"
           (world_with_stream [OBytes chunk_ab; OBytes chunk_c] None)
           0 [chunk_ab; chunk_c]); reflexivity.
Defined.

Lemma after_bad_item_None (items : list PyObj) :
  after_bad_item items = None ↔ forallb is_bytes_like items = true.
Proof.
  induction items as [|x items IH]; [done|].
  destruct x; simpl; done.
Qed.

(** X11. When [audio_bytes] refers to a live iterator, [save_audio]
    returns normally exactly when every item the iterator yields is
    bytes-like (a bytes object, or another object a binary file accepts
    such as a bytearray) and the iterator ends without raising. *)
Theorem save_audio_succeeds_iff (self : GeneratorResponse) (path : string)
    (w : World) (l : nat) (st : IterState) :
  audio_bytes self = OIterator l →
  iters w !! l = Some st →
  ((save_audio self path w).1 = Ok tt
     ↔ forallb is_bytes_like (pending st) = true ∧ ending st = None).
Proof.
  intros Ha Hl. rewrite (save_audio_iterator _ _ _ l st Ha Hl). simpl.
  unfold drained. rewrite <- after_bad_item_None.
  destruct (after_bad_item (pending st)); simpl.
  - split; [done | by intros [? _]].
  - destruct (ending st); split; try done. by intros [_ ?].
Qed.

Lemma save_audio_succeeds_iff_witness :
  (save_audio (with_audio_bytes (OIterator 0)) "card.mp3"
     (world_with_stream [OBytes chunk_ab; OBuffer chunk_c] None)).1 = Ok tt
  ↔ forallb is_bytes_like (pending (mkIter [OBytes chunk_ab; OBuffer chunk_c] None))
      = true
    ∧ ending (mkIter [OBytes chunk_ab; OBuffer chunk_c] None) = None.
Proof.
  apply (save_audio_succeeds_iff (with_audio_bytes (OIterator 0)) "card.mp3"
           (world_with_stream [OBytes chunk_ab; OBuffer chunk_c] None) 0
           (mkIter [OBytes chunk_ab; OBuffer chunk_c] None)); reflexivity.
Defined.

(** ** The length of a text after the word is deleted *)

Lemma replace_scan_delete_length (k : nat) (old s : string) :
  (String.length (replace_scan k old "" s) ≤ String.length s - k)%nat.
Proof.
  revert k. induction s as [|c s IH]; intros k; [simpl; lia|].
  destruct k as [|k]; cbn [replace_scan].
  - destruct (starts_with old (String c s)).
    + rewrite string_app_nil_l. specialize (IH (String.length old - 1)).
      simpl. lia.
    + specialize (IH 0). simpl. lia.
  - specialize (IH k). simpl. lia.
Qed.

Lemma starts_with_length (old s : string) :
  starts_with old s = true → (String.length old ≤ String.length s)%nat.
Proof.
  revert s. induction old as [|a old IH]; intros s H; [simpl; lia|].
  destruct s as [|b s]; [done|]. simpl in H. case_decide; [|done].
  specialize (IH s H). simpl. lia.
Qed.

Lemma replace_scan_present_length (old s : string) :
  old ≠ "" →
  py_contains old s = true →
  (String.length (replace_scan 0 old "" s) + String.length old
     ≤ String.length s)%nat.
Proof.
  intros Hne. induction s as [|c s IH]; intros H.
  - simpl in H. rewrite orb_false_r in H. by destruct old.
  - cbn [py_contains] in H. cbn [replace_scan].
    destruct (starts_with old (String c s)) eqn:Hs.
    + rewrite string_app_nil_l.
      pose proof (starts_with_length _ _ Hs) as Hl.
      pose proof (replace_scan_delete_length (String.length old - 1) old s) as Hd.
      destruct old as [|a old]; [done|]. simpl in *. lia.
    + simpl in H. specialize (IH H). simpl. lia.
Qed.

(** X12. The card text of the Cohere generator is never longer than the
    text the provider returned; and when the (non-empty) word occurs in
    the provider's text, the card text is shorter by at least the length
    of the word: at least one occurrence has been deleted. *)
Theorem cohere_text_is_shorter (env : Providers) (self : Generator)
    (wwc : WordWithContext) (w w' : World) (r : GeneratorResponse) :
  CohereTextGenerator_generate env self (InWord wwc) w = (Ok r, w') →
  ∃ system_prompt raw,
    get_system_prompt_by_language env = Ok system_prompt ∧
    cohere_chat env (cohere_request (API_KEY (config self)) system_prompt wwc)
      = Ok raw ∧
    (String.length (text r) ≤ String.length raw)%nat ∧
    (word wwc ≠ "" → py_contains (word wwc) raw = true →
     (String.length (text r) + String.length (word wwc)
        ≤ String.length raw)%nat).
Proof.
  rewrite CohereTextGenerator_generate_eq.
  destruct (get_system_prompt_by_language env) as [sp|]; [|done]. simpl.
  destruct (cohere_chat env _) as [raw|] eqn:Hraw; [|done].
  intros H. injection H as <- _. exists sp, raw. split_and!; try done.
  - simpl. unfold py_replace. destruct (word wwc) as [|a old].
    + by rewrite intersperse_all_empty.
    + pose proof (replace_scan_delete_length 0 (String a old) raw). lia.
  - intros Hne Hin. simpl. unfold py_replace.
    destruct (word wwc) as [|a old] eqn:Hw; [done|].
    by apply replace_scan_present_length.
Qed.

Lemma cohere_text_is_shorter_witness :
  ∃ system_prompt raw,
    get_system_prompt_by_language (constant_providers "das haus") = Ok system_prompt ∧
    cohere_chat (constant_providers "das haus")
      (cohere_request (API_KEY (config example_cohere)) system_prompt
         (mkWordWithContext "haus" None)) = Ok raw ∧
    (String.length (text (with_text "das ")) ≤ String.length raw)%nat ∧
    (word (mkWordWithContext "haus" None) ≠ "" →
     py_contains (word (mkWordWithContext "haus" None)) raw = true →
     (String.length (text (with_text "das "))
        + String.length (word (mkWordWithContext "haus" None))
        ≤ String.length raw)%nat).
Proof.
  apply (cohere_text_is_shorter (constant_providers "das haus") example_cohere
           (mkWordWithContext "haus" None) empty_world
           (emit (EvRemote (cohere_request "text-key" "PROMPT"
                              (mkWordWithContext "haus" None))) empty_world)).
  reflexivity.
Defined.

(** ** The tables and the construction of generators *)

(** X13. The factory's table has an entry for exactly the available
    models, so the table lookup inside [create] cannot fail; and the
    reverse mapping has one entry per declared member, under exactly the
    declared wire strings. *)
Theorem tables_cover_every_member :
  dom MAPPING = available_models ∧
  (∀ m, MAPPING_getitem (Member m) = Ok (declared_class m)) ∧
  size backward_mapping = length all_members ∧
  (∀ s, s ∈ dom backward_mapping ↔ declared_wire_string s).
Proof.
  split_and!.
  - apply set_eq. intros m. rewrite elem_of_dom, MAPPING_declared.
    split; [intros _; apply all_available | eauto].
  - intros m. unfold MAPPING_getitem. by rewrite MAPPING_declared.
  - by vm_compute.
  - intros s. rewrite elem_of_dom. split.
    + intros [m Hm]. exists m. by apply backward_mapping_inv.
    + intros [m <-]. rewrite backward_mapping_value. eauto.
Qed.

Lemma py_getitem_value (m : AvailableModels) :
  py_getitem backward_mapping (value m) = Ok m.
Proof. unfold py_getitem. by rewrite backward_mapping_value. Qed.

Lemma py_map_create_world (cfgs : list GeneratorConfig) (w : World) :
  (py_map create cfgs w).2 = w.
Proof.
  induction cfgs as [|cfg cfgs IH]; [done|].
  cbn [py_map]. rewrite bind_eq, create_eq. simpl.
  destruct (match model cfg with Member _ => _ | Foreign _ => _ end); [|done].
  rewrite bind_eq.
  destruct (py_map create cfgs w) as [[gens|e] w'] eqn:E; simpl in IH; by subst.
Qed.

(** X14. [from_args] does not check a provider against the slot it is
    given in: any three declared providers are accepted, in any slots,
    and the factory then builds, for each slot, the generator class of
    the provider named there. Construction fails only on a missing
    credential of one of those classes, with the assertion error, and in
    every case leaves the world untouched. *)
Theorem generators_follow_provider_strings (m1 m2 m3 : AvailableModels)
    (k1 s1 k2 s2 k3 s3 lang : string) (w : World) :
  let args := mkNamespace (value m1) k1 s1 (value m2) k2 s2 (value m3) k3 s3 lang in
  let c1 := mkGeneratorConfig (Member m1) k1 s1 lang in
  let c2 := mkGeneratorConfig (Member m2) k2 s2 lang in
  let c3 := mkGeneratorConfig (Member m3) k3 s3 lang in
  from_args args = Ok [c1; c2; c3] ∧
  construct_generators args w =
    (if required_credentials_present (declared_class m1) c1
        && required_credentials_present (declared_class m2) c2
        && required_credentials_present (declared_class m3) c3
     then Ok [ mkGenerator (declared_class m1) c1;
               mkGenerator (declared_class m2) c2;
               mkGenerator (declared_class m3) c3 ]
     else Raise AssertionError, w).
Proof.
  intros args c1 c2 c3.
  assert (Hargs : from_args args = Ok [c1; c2; c3]).
  { unfold from_args, args.
    cbn [text_model image_model voice_model].
    by rewrite !py_getitem_value. }
  split; [done|].
  unfold construct_generators. rewrite bind_eq. unfold lift. rewrite Hargs.
  cbn [py_map]. rewrite !bind_eq, !create_eq. simpl.
  destruct (required_credentials_present (declared_class m1) c1); [|done].
  rewrite !bind_eq, !create_eq. simpl.
  destruct (required_credentials_present (declared_class m2) c2); [|done].
  rewrite !bind_eq, !create_eq. simpl.
  by destruct (required_credentials_present (declared_class m3) c3).
Qed.

(** ** The run as a whole *)

Lemma py_map_on_world_create {Ext} (cfgs : list GeneratorConfig) (s : PState Ext) :
  py_map (λ cfg, on_world (create cfg)) cfgs s
    = ((py_map create cfgs (world s)).1, s).
Proof.
  induction cfgs as [|cfg cfgs IH]; [done|].
  cbn [py_map]. rewrite !bind_eq, on_world_create, create_eq. simpl.
  destruct (match model cfg with Member _ => _ | Foreign _ => _ end); [|done].
  rewrite !bind_eq, IH.
  pose proof (py_map_create_world cfgs (world s)) as Hw.
  destruct (py_map create cfgs (world s)) as [[gens|e] w']; simpl in *; by subst.
Qed.

(** X15. A run of [main] is the existing-card phase, then the
    construction of the three generators, then the new-card phase on the
    words that were not imported. Constructing the generators changes
    nothing; an error of the first phase, an undeclared provider string
    or a missing credential ends the run there, in the state the first
    phase left, and card generation has not been called. *)
Theorem main_processing_phases {Ext} (col : Collaborators Ext) (args : Namespace)
    (input : list WordWithContext) (s : PState Ext) :
  main_processing col args input s =
    match process_existing_cards col input s with
    | (Raise e, s1) => (Raise e, s1)
    | (Ok imported, s1) =>
        match (construct_generators args (world s1)).1 with
        | Raise e => (Raise e, s1)
        | Ok generators =>
            process_new_cards col (exclude_imported_words input imported)
                              generators s1
        end
    end ∧
  generation_calls (process_existing_cards col input s).2 = generation_calls s.
Proof.
  split; [|apply process_existing_cards_calls].
  unfold main_processing. rewrite bind_eq.
  destruct (process_existing_cards col input s) as [[imported|e] s1]; [|done].
  rewrite bind_eq. unfold construct_generators. rewrite bind_eq. unfold lift.
  destruct (from_args args) as [cfgs|e]; [|done].
  rewrite bind_eq, py_map_on_world_create.
  by destruct (py_map create cfgs (world s1)) as [[gens|e] w'].
Qed.






Lemma occurrences_filter (P : WordWithContext → Prop)
    `{!∀ x, Decision (P x)} (w : WordWithContext) (ws : list WordWithContext) :
  occurrences w (filter P ws)
    = if bool_decide (P w) then occurrences w ws else 0.
Proof.
  unfold occurrences. induction ws as [|x ws IH]; [by case_bool_decide|].
  destruct (decide (P x)) as [HP|HP].
  - rewrite (filter_cons_True P) by done.
    destruct (decide (x = w)) as [->|Hne].
    + rewrite !(filter_cons_True (λ y, y = w)) by done. simpl. rewrite IH.
      by rewrite bool_decide_eq_true_2.
    + by rewrite !(filter_cons_False (λ y, y = w)) by done.
  - rewrite (filter_cons_False P) by done. rewrite IH.
    destruct (decide (x = w)) as [->|Hne].
    + by rewrite bool_decide_eq_false_2.
    + by rewrite (filter_cons_False (λ y, y = w)) by done.
Qed.

(** X17. Excluding imported words removes every occurrence of an input
    word whose word was imported and keeps every other input word exactly
    as often as it occurs in the input, in input order: the result is a
    sublist of the input in which each word with context occurs as often
    as in the input, or not at all if its word was imported. Excluding
    the same words again changes nothing, and excluding in two rounds is
    excluding the words of both rounds at once. *)
Theorem exclude_imported_words_sublist (input : list WordWithContext)
    (imported more : list string) :
  sublist (exclude_imported_words input imported) input ∧
  (∀ w, occurrences w (exclude_imported_words input imported)
          = if bool_decide (word w ∈ imported) then 0 else occurrences w input) ∧
  exclude_imported_words (exclude_imported_words input imported) imported
    = exclude_imported_words input imported ∧
  exclude_imported_words (exclude_imported_words input imported) more
    = exclude_imported_words input (imported ++ more).
Proof.
  rewrite !exclude_imported_words_filter. split_and!.
  - apply sublist_filter.
  - intros w. rewrite occurrences_filter.
    destruct (decide (word w ∈ imported)).
    + by rewrite bool_decide_eq_false_2, bool_decide_eq_true_2 by tauto.
    + by rewrite bool_decide_eq_true_2, bool_decide_eq_false_2 by tauto.
  - rewrite list_filter_filter. apply list_filter_iff. tauto.
  - rewrite list_filter_filter. apply list_filter_iff. intros w.
    rewrite not_elem_of_app. tauto.
Qed.

(** ** The word list of the new-card phase *)





